(** * WiFiUDP: the datagram socket of the CC3200 WiFi library

    A shallow embedding of [hardware/cc3200/libraries/WiFi/WiFiUdp.cpp].

    The object is a record of its member variables.  Every member function
    is a state-passing computation over that record which may call into the
    SimpleLink socket layer and the [WiFiClass] slot table; those calls are
    kept symbolic (a tree of requests and continuations) and are answered
    by a transport given separately, so that statements can quantify over
    every behaviour of the network.  Undefined behaviour of the C++ source
    (an access outside an array) is the explicit outcome [Fault]. *)

From Stdlib Require Import ZArith Lia Bool String.
From Stdlib Require Import Init.Byte.
From stdpp Require Import base list.

Local Open Scope Z_scope.

(** ** Platform constants

    [WiFi.h], [WiFiUdp.h] and the SimpleLink headers are not part of the
    sources at hand: the constants and byte-order macros they declare are
    parameters of the development. *)

Class Platform := {
  NO_SOCKET_AVAIL : Z;
  UDP_RX_PACKET_MAX_SIZE : Z;
  UDP_TX_PACKET_MAX_SIZE : Z;
  SL_AF_INET : Z;
  SL_SOCK_DGRAM : Z;
  IPPROTO_UDP : Z;
  sl_Htons : Z -> Z;
  sl_Htonl : Z -> Z
}.

(** [size_t] on the CC3200 (ARM Cortex-M4, ILP32) is an unsigned 32-bit
    integer: arithmetic carried out in [size_t] wraps modulo [2^32]. *)

Definition size_t_modulus : Z := 2 ^ 32.

Definition to_size_t (z : Z) : Z := z mod size_t_modulus.

(** ** Memory helpers *)

(** [memset(p, 0, n)] on an array that has exactly [n] cells. *)
Definition zeroes (n : Z) : list byte := replicate (Z.to_nat n) x00.

(** [memcpy(&dst[off], src, n)].  The copy is defined only when the [n]
    cells exist on both sides. *)
Definition memcpy (dst : list byte) (off : Z) (src : list byte) (n : Z)
  : option (list byte) :=
  if (0 <=? off) && (0 <=? n)
     && (off + n <=? Z.of_nat (length dst))
     && (n <=? Z.of_nat (length src))
  then Some (take (Z.to_nat off) dst
             ++ take (Z.to_nat n) src
             ++ drop (Z.to_nat (off + n)) dst)
  else None.

(** [a[i]] as an rvalue. *)
Definition load (a : list byte) (i : Z) : option byte :=
  if 0 <=? i then a !! Z.to_nat i else None.

(** [a[i] = b]. *)
Definition store (a : list byte) (i : Z) (b : byte) : option (list byte) :=
  if (0 <=? i) && (i <? Z.of_nat (length a))
  then Some (<[Z.to_nat i := b]> a)
  else None.

(** What a callee that was handed [buf] and wrote [data] from its first
    cell leaves in [buf]; it cannot grow the array. *)
Definition overwrite (buf data : list byte) : list byte :=
  take (length buf) (data ++ drop (length data) buf).

Definition byte_to_int (b : byte) : Z := Z.of_N (Byte.to_N b).

(** ** The object

    The members of the class, in the order the constructor and [begin]
    set them.  The integer members are kept as mathematical integers;
    where the source computes in [size_t] the wrap-around is written out
    at that place.  The two arrays are lists, of the length the
    constructor gives them. *)

Record SlSockAddrIn_t := mkSockAddr {
  sin_family : Z;
  sin_port : Z;
  sin_addr : Z
}.

Record WiFiUDP := mkWiFiUDP {
  _sock : Z;
  _port : Z;
  _socketHandle : Z;
  _remoteIP : Z;
  _remotePort : Z;
  _sendIP : Z;
  _sendPort : Z;
  rx_buf : list byte;
  rx_currentIndex : Z;
  rx_fillLevel : Z;
  tx_buf : list byte;
  tx_fillLevel : Z
}.

Definition set_sock v s :=
  mkWiFiUDP v (_port s) (_socketHandle s) (_remoteIP s) (_remotePort s)
    (_sendIP s) (_sendPort s) (rx_buf s) (rx_currentIndex s)
    (rx_fillLevel s) (tx_buf s) (tx_fillLevel s).
Definition set_port v s :=
  mkWiFiUDP (_sock s) v (_socketHandle s) (_remoteIP s) (_remotePort s)
    (_sendIP s) (_sendPort s) (rx_buf s) (rx_currentIndex s)
    (rx_fillLevel s) (tx_buf s) (tx_fillLevel s).
Definition set_socketHandle v s :=
  mkWiFiUDP (_sock s) (_port s) v (_remoteIP s) (_remotePort s)
    (_sendIP s) (_sendPort s) (rx_buf s) (rx_currentIndex s)
    (rx_fillLevel s) (tx_buf s) (tx_fillLevel s).
Definition set_remoteIP v s :=
  mkWiFiUDP (_sock s) (_port s) (_socketHandle s) v (_remotePort s)
    (_sendIP s) (_sendPort s) (rx_buf s) (rx_currentIndex s)
    (rx_fillLevel s) (tx_buf s) (tx_fillLevel s).
Definition set_remotePort v s :=
  mkWiFiUDP (_sock s) (_port s) (_socketHandle s) (_remoteIP s) v
    (_sendIP s) (_sendPort s) (rx_buf s) (rx_currentIndex s)
    (rx_fillLevel s) (tx_buf s) (tx_fillLevel s).
Definition set_sendIP v s :=
  mkWiFiUDP (_sock s) (_port s) (_socketHandle s) (_remoteIP s)
    (_remotePort s) v (_sendPort s) (rx_buf s) (rx_currentIndex s)
    (rx_fillLevel s) (tx_buf s) (tx_fillLevel s).
Definition set_sendPort v s :=
  mkWiFiUDP (_sock s) (_port s) (_socketHandle s) (_remoteIP s)
    (_remotePort s) (_sendIP s) v (rx_buf s) (rx_currentIndex s)
    (rx_fillLevel s) (tx_buf s) (tx_fillLevel s).
Definition set_rx_buf v s :=
  mkWiFiUDP (_sock s) (_port s) (_socketHandle s) (_remoteIP s)
    (_remotePort s) (_sendIP s) (_sendPort s) v (rx_currentIndex s)
    (rx_fillLevel s) (tx_buf s) (tx_fillLevel s).
Definition set_rx_currentIndex v s :=
  mkWiFiUDP (_sock s) (_port s) (_socketHandle s) (_remoteIP s)
    (_remotePort s) (_sendIP s) (_sendPort s) (rx_buf s) v
    (rx_fillLevel s) (tx_buf s) (tx_fillLevel s).
Definition set_rx_fillLevel v s :=
  mkWiFiUDP (_sock s) (_port s) (_socketHandle s) (_remoteIP s)
    (_remotePort s) (_sendIP s) (_sendPort s) (rx_buf s)
    (rx_currentIndex s) v (tx_buf s) (tx_fillLevel s).
Definition set_tx_buf v s :=
  mkWiFiUDP (_sock s) (_port s) (_socketHandle s) (_remoteIP s)
    (_remotePort s) (_sendIP s) (_sendPort s) (rx_buf s)
    (rx_currentIndex s) (rx_fillLevel s) v (tx_fillLevel s).
Definition set_tx_fillLevel v s :=
  mkWiFiUDP (_sock s) (_port s) (_socketHandle s) (_remoteIP s)
    (_remotePort s) (_sendIP s) (_sendPort s) (rx_buf s)
    (rx_currentIndex s) (rx_fillLevel s) (tx_buf s) v.

(** ** Calls into the environment

    One constructor per external function the file uses; the index is the
    type of what the call hands back (return value and out-parameters). *)

Inductive transportE : Type -> Type :=
| WiFiClass_getSocket : transportE Z
| WiFiClass_server_port (sock port : Z) : transportE unit
| WiFi_hostByName (host : string) : transportE (Z * Z)
| sl_Socket (domain type protocol : Z) : transportE Z
| sl_Bind (sd : Z) (addr : SlSockAddrIn_t) : transportE Z
| sl_Close (sd : Z) : transportE Z
| sl_SendTo (sd : Z) (buf : list byte) (len flags : Z)
    (to : SlSockAddrIn_t) : transportE Z
| sl_Select (nfds : Z) (readsds exceptsds : list Z)
    (tv_sec tv_usec : Z) : transportE Z
| sl_RecvFrom (sd : Z) (len flags : Z)
  : transportE (Z * list byte * SlSockAddrIn_t).

(** A member function body: it returns, faults, or calls out and goes on
    with the answer. *)
Inductive prog (A : Type) : Type :=
| Ret (a : A)
| Fault
| Call {R : Type} (e : transportE R) (k : R -> prog A).

Arguments Ret {A} a.
Arguments Fault {A}.
Arguments Call {A R} e k.

(** Member functions read and update [*this]. *)
Definition M (A : Type) : Type := WiFiUDP -> prog (A * WiFiUDP).

Fixpoint pbind {A B} (p : prog A) (f : A -> prog B) : prog B :=
  match p with
  | Ret a => f a
  | Fault => Fault
  | Call e k => Call e (fun r => pbind (k r) f)
  end.

Definition ret {A} (a : A) : M A := fun s => Ret (a, s).
Definition bind {A B} (m : M A) (f : A -> M B) : M B :=
  fun s => pbind (m s) (fun '(a, s') => f a s').
Definition call {R} (e : transportE R) : M R :=
  fun s => Call e (fun r => Ret (r, s)).
Definition get {A} (f : WiFiUDP -> A) : M A := fun s => Ret (f s, s).
Definition upd (f : WiFiUDP -> WiFiUDP) : M unit := fun s => Ret (tt, f s).
Definition defined {A} (o : option A) : M A :=
  fun s => match o with Some a => Ret (a, s) | None => Fault end.

Declare Scope udp_scope.
Delimit Scope udp_scope with udp.
Notation "x <- m ;; k" := (bind m (fun x => k))
  (at level 100, m at next level, right associativity) : udp_scope.
Notation "m ;; k" := (bind m (fun _ => k))
  (at level 100, right associativity) : udp_scope.
Local Open Scope udp_scope.

(** ** The member functions *)

Section Methods.
Context `{Platform}.

(** [WiFiUDP::WiFiUDP()].  The constructor leaves [_port],
    [_socketHandle], [_sendIP] and [_sendPort] as it finds them; their
    indeterminate contents are the arguments. *)
Definition WiFiUDP_ctor (port0 handle0 sendIP0 sendPort0 : Z) : WiFiUDP :=
  {| _sock := NO_SOCKET_AVAIL;
     _port := port0;
     _socketHandle := handle0;
     _remoteIP := 0;
     _remotePort := 0;
     _sendIP := sendIP0;
     _sendPort := sendPort0;
     rx_buf := zeroes UDP_RX_PACKET_MAX_SIZE;
     rx_currentIndex := 0;
     rx_fillLevel := 0;
     tx_buf := zeroes UDP_TX_PACKET_MAX_SIZE;
     tx_fillLevel := 0 |}.

Definition begin (port : Z) : M Z :=
  sock <- call WiFiClass_getSocket ;;
  if sock =? NO_SOCKET_AVAIL then ret 0 else
  socketHandle <- call (sl_Socket SL_AF_INET SL_SOCK_DGRAM IPPROTO_UDP) ;;
  if socketHandle <? 0 then ret 0 else
  let portAddress := mkSockAddr SL_AF_INET (sl_Htons port) 0 in
  iRet <- call (sl_Bind socketHandle portAddress) ;;
  if iRet <? 0 then
    call (sl_Close socketHandle) ;;
    ret 0
  else
  upd (set_socketHandle socketHandle) ;;
  upd (set_port port) ;;
  upd (set_sock sock) ;;
  call (WiFiClass_server_port sock port) ;;
  ret 1.

Definition available : M Z :=
  bytesLeft <- get (fun s => rx_fillLevel s - rx_currentIndex s) ;;
  if bytesLeft <? 0 then ret 0 else ret bytesLeft.

Definition flush : M unit :=
  upd (set_rx_buf (zeroes UDP_RX_PACKET_MAX_SIZE)) ;;
  upd (set_rx_currentIndex 0) ;;
  upd (set_rx_fillLevel 0).

Definition stop : M unit :=
  flush ;;
  socketHandle <- get _socketHandle ;;
  call (sl_Close socketHandle) ;;
  sock <- get _sock ;;
  call (WiFiClass_server_port sock 0) ;;
  upd (set_sock NO_SOCKET_AVAIL).

(** [beginPacket(IPAddress, uint16_t)] *)
Definition beginPacket (ip port : Z) : M Z :=
  sock <- get _sock ;;
  if sock =? NO_SOCKET_AVAIL then ret 0 else
  upd (set_sendIP ip) ;;
  upd (set_sendPort port) ;;
  upd (set_tx_buf (zeroes UDP_TX_PACKET_MAX_SIZE)) ;;
  upd (set_rx_currentIndex 0) ;;
  upd (set_tx_fillLevel 0) ;;
  ret 1.

(** [beginPacket(const char*, uint16_t)] *)
Definition beginPacket_host (host : string) (port : Z) : M Z :=
  r <- call (WiFi_hostByName host) ;;
  let '(success, ip) := r in
  if success =? 0 then ret 0 else beginPacket ip port.

Definition endPacket : M Z :=
  sendPort <- get _sendPort ;;
  sendIP <- get _sendIP ;;
  let sendAddress :=
    mkSockAddr SL_AF_INET (sl_Htons sendPort) (sl_Htonl sendIP) in
  socketHandle <- get _socketHandle ;;
  buf <- get tx_buf ;;
  fill <- get tx_fillLevel ;;
  iRet <- call (sl_SendTo socketHandle buf fill 0 sendAddress) ;;
  if iRet <? 0 then ret 0 else
  upd (set_tx_buf (zeroes UDP_TX_PACKET_MAX_SIZE)) ;;
  upd (set_tx_fillLevel 0) ;;
  ret 1.

(** [write(const uint8_t*, size_t)].  The sum and the difference are
    computed in [size_t]. *)
Definition write (buffer : list byte) (size : Z) : M Z :=
  fill <- get tx_fillLevel ;;
  let size :=
    if to_size_t (fill + size) >? UDP_TX_PACKET_MAX_SIZE
    then to_size_t (UDP_TX_PACKET_MAX_SIZE - fill)
    else size in
  buf <- get tx_buf ;;
  buf' <- defined (memcpy buf fill buffer size) ;;
  upd (set_tx_buf buf') ;;
  upd (set_tx_fillLevel (fill + size)) ;;
  ret size.

(** [write(uint8_t)] *)
Definition write_byte (b : byte) : M Z := write [b] 1.

Definition parsePacket : M Z :=
  socketHandle <- get _socketHandle ;;
  if socketHandle =? NO_SOCKET_AVAIL then ret 0 else
  iRet <- call (sl_Select (socketHandle + 1) [socketHandle] [socketHandle]
                  0 10000) ;;
  if iRet <=? 0 then ret 0 else
  r <- call (sl_RecvFrom socketHandle UDP_RX_PACKET_MAX_SIZE 0) ;;
  let '(bytes, data, address) := r in
  buf <- get rx_buf ;;
  upd (set_rx_buf (overwrite buf data)) ;;
  upd (set_remoteIP (sl_Htonl (sin_addr address))) ;;
  upd (set_remotePort (sl_Htons (sin_port address))) ;;
  if bytes <? 0 then
    upd (set_rx_fillLevel 0) ;;
    ret 0
  else
    upd (set_rx_currentIndex 0) ;;
    upd (set_rx_fillLevel bytes) ;;
    ret bytes.

(** [read()] *)
Definition read : M Z :=
  idx <- get rx_currentIndex ;;
  fill <- get rx_fillLevel ;;
  if idx >=? fill then ret 0 else
  buf <- get rx_buf ;;
  b <- defined (load buf idx) ;;
  upd (set_rx_currentIndex (idx + 1)) ;;
  ret (byte_to_int b).

(** The [while] loop of [read(unsigned char*, size_t)].  Each turn uses up
    one unread byte, so the number of unread bytes bounds the turns; that
    number is the [fuel] [read_buf] passes.  [bytesCopied <= len]
    compares an [int] with a [size_t], hence in [size_t]. *)
Fixpoint read_loop (fuel : nat) (len : Z) (buffer : list byte)
    (bytesCopied : Z) : M (Z * list byte) :=
  idx <- get rx_currentIndex ;;
  fill <- get rx_fillLevel ;;
  if (to_size_t bytesCopied <=? len) && (idx <? fill) then
    match fuel with
    | O => ret (bytesCopied, buffer)
    | S fuel' =>
        buf <- get rx_buf ;;
        b <- defined (load buf idx) ;;
        buffer' <- defined (store buffer bytesCopied b) ;;
        upd (set_rx_currentIndex (idx + 1)) ;;
        read_loop fuel' len buffer' (bytesCopied + 1)
    end
  else ret (bytesCopied, buffer).

(** [read(unsigned char*, size_t)]: the count returned and the caller's
    array afterwards. *)
Definition read_buf (buffer : list byte) (len : Z) : M (Z * list byte) :=
  idx <- get rx_currentIndex ;;
  fill <- get rx_fillLevel ;;
  read_loop (Z.to_nat (fill - idx)) len buffer 0.

Definition peek : M Z :=
  idx <- get rx_currentIndex ;;
  buf <- get rx_buf ;;
  b <- defined (load buf idx) ;;
  ret (byte_to_int b).

Definition remoteIP : M Z := get _remoteIP.

Definition remotePort : M Z := get _remotePort.

End Methods.

(** ** Running a member function against a transport

    A transport answers every call from its own state [W]. *)

Class Transport (W : Type) :=
  answer : forall R, transportE R -> W -> R * W.

Arguments answer {W _ R} e w.

(** A call as it appears in a log. *)
Definition request : Type := { R : Type & transportE R }.

Definition req {R} (e : transportE R) : request := existT R e.

Section Run.
Context {W : Type} `{Transport W}.

(** The result of a body, or [None] if it faults. *)
Fixpoint run {A} (p : prog A) (w : W) : option (A * W) :=
  match p with
  | Ret a => Some (a, w)
  | Fault => None
  | Call e k => let '(r, w') := answer e w in run (k r) w'
  end.

(** The calls a body issues, in order. *)
Fixpoint calls {A} (p : prog A) (w : W) : list request :=
  match p with
  | Ret _ => []
  | Fault => []
  | Call e k => let '(r, w') := answer e w in req e :: calls (k r) w'
  end.

End Run.

(** What a body establishes whenever it returns, whatever the transport
    answers. *)
Fixpoint post {A} (p : prog A) (Q : A -> Prop) : Prop :=
  match p with
  | Ret a => Q a
  | Fault => True
  | Call e k => forall r, post (k r) Q
  end.

(** ** Sequences of member-function calls *)

Inductive method : Type :=
| m_begin (port : Z)
| m_available
| m_stop
| m_beginPacket_host (host : string) (port : Z)
| m_beginPacket (ip port : Z)
| m_endPacket
| m_write_byte (b : byte)
| m_write (buffer : list byte) (size : Z)
| m_parsePacket
| m_read
| m_read_buf (buffer : list byte) (len : Z)
| m_peek
| m_flush
| m_remoteIP
| m_remotePort.

Definition is_begin (m : method) : bool :=
  match m with m_begin _ => true | _ => false end.

Section Sequences.
Context `{Platform}.

(** The value a call returns ([0] for the [void] ones; the count for
    [read(buffer, len)]). *)
Definition invoke (m : method) : M Z :=
  match m with
  | m_begin port => begin port
  | m_available => available
  | m_stop => stop ;; ret 0
  | m_beginPacket_host host port => beginPacket_host host port
  | m_beginPacket ip port => beginPacket ip port
  | m_endPacket => endPacket
  | m_write_byte b => write_byte b
  | m_write buffer size => write buffer size
  | m_parsePacket => parsePacket
  | m_read => read
  | m_read_buf buffer len => r <- read_buf buffer len ;; ret (fst r)
  | m_peek => peek
  | m_flush => flush ;; ret 0
  | m_remoteIP => remoteIP
  | m_remotePort => remotePort
  end.

Fixpoint invoke_all (ms : list method) : M (list Z) :=
  match ms with
  | [] => ret []
  | m :: ms' =>
      r <- invoke m ;;
      rs <- invoke_all ms' ;;
      ret (r :: rs)
  end.

(** No [begin] among the calls reported success. *)
Definition no_begin_succeeded (ms : list method) (rets : list Z) : Prop :=
  Forall2 (fun m r => is_begin m = true -> r = 0) ms rets.

(** The object counts as bound while [_sock] names a slot. *)
Definition bound (st : WiFiUDP) : Prop := _sock st <> NO_SOCKET_AVAIL.

Definition rx_invariant (st : WiFiUDP) : Prop :=
  0 <= rx_currentIndex st
  /\ rx_currentIndex st <= rx_fillLevel st
  /\ rx_fillLevel st <= UDP_RX_PACKET_MAX_SIZE.

Definition tx_invariant (st : WiFiUDP) : Prop :=
  0 <= tx_fillLevel st /\ tx_fillLevel st <= UDP_TX_PACKET_MAX_SIZE.

(** The condition of the loop in [read(buffer, len)]. *)
Definition read_loop_cond (len bytesCopied : Z) (st : WiFiUDP) : bool :=
  (to_size_t bytesCopied <=? len)
  && (rx_currentIndex st <? rx_fillLevel st).

(** The address [endPacket] hands to [sl_SendTo]. *)
Definition sendAddress_of (st : WiFiUDP) : SlSockAddrIn_t :=
  mkSockAddr SL_AF_INET (sl_Htons (_sendPort st)) (sl_Htonl (_sendIP st)).

(** What [endPacket] asks of the transport. *)
Definition endPacket_request (st : WiFiUDP) : transportE Z :=
  sl_SendTo (_socketHandle st) (tx_buf st) (tx_fillLevel st) 0
    (sendAddress_of st).

(** What [parsePacket] asks of the transport: the poll, then the
    receive. *)
Definition poll_request (st : WiFiUDP) : transportE Z :=
  sl_Select (_socketHandle st + 1) [_socketHandle st] [_socketHandle st]
    0 10000.

Definition receive_request (st : WiFiUDP)
  : transportE (Z * list byte * SlSockAddrIn_t) :=
  sl_RecvFrom (_socketHandle st) UDP_RX_PACKET_MAX_SIZE 0.

End Sequences.

(** ** A concrete platform and network, for evaluation

    A little-endian board with 1 KiB buffers, and a network whose state is
    the set of open descriptors, the queue of what will arrive and the
    list of what was sent. *)

Module Sample.

Definition bswap16 (v : Z) : Z :=
  Z.lor (Z.shiftl (Z.land v 255) 8) (Z.land (Z.shiftr v 8) 255).

Definition bswap32 (v : Z) : Z :=
  Z.lor (Z.shiftl (Z.land v 255) 24)
    (Z.lor (Z.shiftl (Z.land (Z.shiftr v 8) 255) 16)
       (Z.lor (Z.shiftl (Z.land (Z.shiftr v 16) 255) 8)
          (Z.land (Z.shiftr v 24) 255))).

Definition platform : Platform :=
  {| NO_SOCKET_AVAIL := 255;
     UDP_RX_PACKET_MAX_SIZE := 1024;
     UDP_TX_PACKET_MAX_SIZE := 1024;
     SL_AF_INET := 2;
     SL_SOCK_DGRAM := 2;
     IPPROTO_UDP := 17;
     sl_Htons := bswap16;
     sl_Htonl := bswap32 |}.

Inductive inbound : Type :=
| Datagram (payload : list byte) (from : SlSockAddrIn_t)
| RecvError (code : Z) (addr : SlSockAddrIn_t).

Record net := mkNet {
  opened : list Z;
  inbox : list inbound;
  outbox : list (Z * list byte * SlSockAddrIn_t)
}.

Definition is_open (sd : Z) (w : net) : bool := existsb (Z.eqb sd) (opened w).

Definition fresh_sd (w : net) : Z := Z.of_nat (length (opened w)).

Definition net_answer (R : Type) (e : transportE R) (w : net) : R * net :=
  match e in transportE R return R * net with
  | WiFiClass_getSocket => (0, w)
  | WiFiClass_server_port _ _ => (tt, w)
  | WiFi_hostByName _ => ((1, 3232235777), w)
  | sl_Socket _ _ _ =>
      (fresh_sd w, mkNet (fresh_sd w :: opened w) (inbox w) (outbox w))
  | sl_Bind sd _ => (if is_open sd w then 0 else -1, w)
  | sl_Close sd =>
      (if is_open sd w then 0 else -1,
       mkNet (filter (fun h => h <> sd) (opened w)) (inbox w) (outbox w))
  | sl_SendTo sd buf len _ to =>
      if is_open sd w
      then (len, mkNet (opened w) (inbox w)
                   (outbox w ++ [(sd, take (Z.to_nat len) buf, to)]))
      else (-1, w)
  | sl_Select _ readsds _ _ _ =>
      (if forallb (fun sd => is_open sd w) readsds
       then match inbox w with [] => 0 | _ :: _ => 1 end
       else -1, w)
  | sl_RecvFrom sd len _ =>
      if is_open sd w then
        match inbox w with
        | [] => ((-11, [], mkSockAddr 0 0 0), w)
        | Datagram payload from :: rest =>
            ((Z.min (Z.of_nat (length payload)) len,
              take (Z.to_nat len) payload, from),
             mkNet (opened w) rest (outbox w))
        | RecvError code addr :: rest =>
            ((code, [], addr), mkNet (opened w) rest (outbox w))
        end
      else ((-1, [], mkSockAddr 0 0 0), w)
  end.

Definition transport : Transport net := net_answer.

(** A freshly constructed object; the members the constructor skips hold
    arbitrary leftovers. *)
Definition fresh : WiFiUDP := @WiFiUDP_ctor platform 7 (-1) 0 0.

Definition idle : net := mkNet [] [] [].

Definition peer : SlSockAddrIn_t :=
  mkSockAddr 2 (bswap16 9000) (bswap32 3232235777).

Definition hello : list byte := [x68; x65; x6c; x6c; x6f].

Definition digits : list byte :=
  [x30; x31; x32; x33; x34; x35; x36; x37; x38; x39].

(** The network with one ten-byte datagram on its way, and the one where
    a receive error follows it. *)
Definition incoming : net := mkNet [] [Datagram digits peer] [].

Definition lossy : net :=
  mkNet [] [Datagram digits peer; RecvError (-1) (mkSockAddr 0 0 0)] [].

End Sample.

(** The values a body returns, without the states. *)
Definition returns {W} `{Transport W} {A} (p : prog (A * WiFiUDP)) (w : W)
  : option A :=
  match run p w with
  | Some (a, _, _) => Some a
  | None => None
  end.

(** The object a body leaves behind. *)
Definition final {W} `{Transport W} {A} (p : prog (A * WiFiUDP)) (w : W)
  : option WiFiUDP :=
  match run p w with
  | Some (_, st, _) => Some st
  | None => None
  end.

(** States of the sample object along a session: bound by [begin(8000)];
    then holding "hello" for 192.168.1.1:9000; then stopped. *)
Module Session.
Import Sample.
#[local] Existing Instances platform transport.

Definition bound_net : net := mkNet [0] [] [].

Definition bound_state : WiFiUDP :=
  Eval vm_compute in
    match final (begin 8000 fresh) idle with
    | Some st => st
    | None => fresh
    end.

Definition hello_state : WiFiUDP :=
  Eval vm_compute in
    match final ((beginPacket 3232235777 9000 ;; write hello 5) bound_state)
            bound_net with
    | Some st => st
    | None => fresh
    end.

Definition sent_net : net := mkNet [0] [] [(0, hello, peer)].

Definition stopped_state : WiFiUDP :=
  Eval vm_compute in
    match final (stop hello_state) bound_net with
    | Some st => st
    | None => fresh
    end.

Definition after_stop : list method :=
  [m_write hello 5; m_parsePacket; m_endPacket; m_read].

Definition later_state : WiFiUDP :=
  Eval vm_compute in
    match final ((stop ;; invoke_all after_stop) hello_state) bound_net with
    | Some st => st
    | None => fresh
    end.

End Session.

(** The packet under assembly: the first [tx_fillLevel] bytes of
    [tx_buf], which is what [endPacket] gives [sl_SendTo] to send. *)
Definition pending (st : WiFiUDP) : list byte :=
  take (Z.to_nat (tx_fillLevel st)) (tx_buf st).

(** The unread part of the received packet. *)
Definition unread (st : WiFiUDP) : list byte :=
  take (Z.to_nat (rx_fillLevel st - rx_currentIndex st))
    (drop (Z.to_nat (rx_currentIndex st)) (rx_buf st)).

(** The calls that assemble or send a packet. *)
Definition transmit_side (m : method) : bool :=
  match m with
  | m_beginPacket_host _ _ | m_beginPacket _ _ | m_endPacket
  | m_write_byte _ | m_write _ _ => true
  | _ => false
  end.

(** The calls whose body mentions [_sock]. *)
Definition mentions_sock (m : method) : bool :=
  match m with
  | m_begin _ | m_stop | m_beginPacket_host _ _ | m_beginPacket _ _ => true
  | _ => false
  end.

(** The result of a run, with [_sock] of the final object replaced. *)
Definition with_sock {W A} (v : Z) (r : option (A * WiFiUDP * W))
  : option (A * WiFiUDP * W) :=
  match r with
  | Some (a, st, w) => Some (a, set_sock v st, w)
  | None => None
  end.

(** What a body establishes on every run: it does not fault and its
    result satisfies [Q], whatever the transport answers. *)
Fixpoint always {A} (p : prog A) (Q : A -> Prop) : Prop :=
  match p with
  | Ret a => Q a
  | Fault => False
  | Call e k => forall r, always (k r) Q
  end.

(** A transport that reads its answers off a script: every call that
    returns an integer takes the next entry (0 once the script is used
    up); a receive stores nothing and leaves a zero address. *)
Module Scripted.

Definition script : Type := list Z.

Definition next (w : script) : Z * script :=
  match w with
  | [] => (0, [])
  | z :: w' => (z, w')
  end.

Definition script_answer (R : Type) (e : transportE R) (w : script)
  : R * script :=
  match e in transportE R return R * script with
  | WiFiClass_getSocket => next w
  | WiFiClass_server_port _ _ => (tt, w)
  | WiFi_hostByName _ =>
      let '(success, w1) := next w in
      let '(ip, w2) := next w1 in
      ((success, ip), w2)
  | sl_Socket _ _ _ => next w
  | sl_Bind _ _ => next w
  | sl_Close _ => next w
  | sl_SendTo _ _ _ _ _ => next w
  | sl_Select _ _ _ _ _ => next w
  | sl_RecvFrom _ _ _ =>
      let '(bytes, w1) := next w in
      ((bytes, [], mkSockAddr 0 0 0), w1)
  end.

Definition transport : Transport script := script_answer.

End Scripted.

(** More states of the sample object: holding the ten-digit datagram
    unread; with the transmit buffer filled to the brim; and after a
    datagram of full size has been read to its last byte. *)
Module Replay.
Import Sample Session.
#[local] Existing Instances platform transport.

Definition arriving : net := mkNet [0] [Datagram digits peer] [].

Definition received_state : WiFiUDP :=
  Eval vm_compute in
    match final (parsePacket bound_state) arriving with
    | Some st => st
    | None => fresh
    end.

Definition full_tx_state : WiFiUDP :=
  Eval vm_compute in
    match final (write (replicate 1024 x01) 1024 hello_state) bound_net with
    | Some st => st
    | None => fresh
    end.

Definition drained_state : WiFiUDP :=
  Eval vm_compute in
    match final ((parsePacket ;; read_buf (replicate 1024 x00) 1023)
                   bound_state)
            (mkNet [0] [Datagram (replicate 1024 x41) peer] []) with
    | Some st => st
    | None => fresh
    end.

End Replay.

(** * Results *)

(** ** Reasoning about bodies *)

Section Bodies.
Context {W : Type} `{Transport W}.

Lemma post_run {A} (p : prog A) (Q : A -> Prop) (w w' : W) (a : A) :
  post p Q -> run p w = Some (a, w') -> Q a.
Proof.
  revert w. induction p as [x| |R e k IH]; cbn; intros w HQ Hrun.
  - congruence.
  - discriminate.
  - destruct (answer e w) as [r w1]. eauto.
Qed.

Lemma run_pbind {A B} (p : prog A) (f : A -> prog B) (w : W) :
  run (pbind p f) w =
  match run p w with
  | Some (a, w1) => run (f a) w1
  | None => None
  end.
Proof.
  revert w. induction p as [x| |R e k IH]; cbn; intros w; try reflexivity.
  destruct (answer e w) as [r w1]. apply IH.
Qed.

Lemma run_bind {A B} (m : M A) (f : A -> M B) (st : WiFiUDP) (w : W) :
  run (bind m f st) w =
  match run (m st) w with
  | Some (a, st1, w1) => run (f a st1) w1
  | None => None
  end.
Proof.
  unfold bind. rewrite run_pbind.
  destruct (run (m st) w) as [[[a st1] w1]|]; reflexivity.
Qed.

Lemma calls_pbind {A B} (p : prog A) (f : A -> prog B) (w : W) :
  calls (pbind p f) w =
  calls p w ++
  match run p w with
  | Some (a, w1) => calls (f a) w1
  | None => []
  end.
Proof.
  revert w. induction p as [x| |R e k IH]; cbn; intros w; try reflexivity.
  destruct (answer e w) as [r w1]. cbn. f_equal. apply IH.
Qed.

End Bodies.

Lemma post_weaken {A} (p : prog A) (Q Q' : A -> Prop) :
  (forall a, Q a -> Q' a) -> post p Q -> post p Q'.
Proof.
  intros HQ. induction p as [x| |R e k IH]; cbn; auto.
Qed.

Lemma post_pbind {A B} (p : prog A) (f : A -> prog B) (Q : B -> Prop) :
  post p (fun a => post (f a) Q) -> post (pbind p f) Q.
Proof.
  induction p as [x| |R e k IH]; cbn; auto.
Qed.

Lemma post_bind {A B} (m : M A) (f : A -> M B) (st : WiFiUDP)
    (Q : B * WiFiUDP -> Prop) :
  post (m st) (fun '(a, st1) => post (f a st1) Q) -> post (bind m f st) Q.
Proof.
  intros Hm. unfold bind. apply post_pbind.
  eapply post_weaken; [|exact Hm]. intros [a st1]. auto.
Qed.

(** Unfolding the monad and case analysis on the tests a body makes. *)
Ltac unfold_body :=
  unfold bind, get, upd, ret, call, defined in *;
  cbn [pbind post run calls fst snd] in *.

Ltac split_tests :=
  repeat (unfold_body; intros;
          try match goal with
          | |- context [if ?b then _ else _] => destruct b eqn:?
          | |- context [let '(_, _) := ?r in _] => destruct r
          | |- context [match ?o with Some _ => _ | None => _ end] =>
              destruct o eqn:?
          end).

(** ** Which members a call touches *)

Section Frames.
Context `{Platform}.

(** The loop of [read(buffer, len)] moves the read cursor and nothing
    else. *)
Lemma read_loop_frame fuel len buffer bytesCopied st :
  post (read_loop fuel len buffer bytesCopied st)
       (fun '(_, st') => st' = set_rx_currentIndex (rx_currentIndex st') st).
Proof.
  revert buffer bytesCopied st.
  induction fuel as [|fuel IH]; intros buffer bytesCopied st; simpl.
  - split_tests; now destruct st.
  - split_tests; try now destruct st.
    eapply post_weaken; [|apply IH].
    intros [r st'] ->. reflexivity.
Qed.

(** An unbound object stays unbound until a [begin] reports success. *)
Lemma invoke_keeps_unbound m st :
  _sock st = NO_SOCKET_AVAIL ->
  post (invoke m st)
       (fun '(r, st') =>
          (is_begin m = true -> r = 0) -> _sock st' = NO_SOCKET_AVAIL).
Proof.
  intros Hsock. destruct m; simpl.
  all: try (unfold begin, available, stop, flush, beginPacket_host,
              beginPacket, endPacket, write_byte, write, parsePacket, read,
              peek, remoteIP, remotePort; split_tests; auto; fail).
  - (* begin *)
    unfold begin. split_tests; auto.
    match goal with Hr : true = true -> 1 = 0 |- _ =>
      specialize (Hr eq_refl); discriminate Hr end.
  - (* read(buffer, len) *)
    unfold read_buf. unfold_body. apply post_pbind.
    eapply post_weaken; [|apply read_loop_frame].
    intros [r st'] ->. cbn. auto.
Qed.

End Frames.

(** ** What [write] accepts *)

Section Write.
Context `{Platform} {W : Type} `{Transport W}.

Lemma to_size_t_small z : 0 <= z < size_t_modulus -> to_size_t z = z.
Proof. intros Hz. unfold to_size_t. now apply Z.mod_small. Qed.

Lemma memcpy_in_range dst off src n :
  0 <= off -> 0 <= n ->
  off + n <= Z.of_nat (length dst) ->
  n <= Z.of_nat (length src) ->
  memcpy dst off src n =
  Some (take (Z.to_nat off) dst ++ take (Z.to_nat n) src
        ++ drop (Z.to_nat (off + n)) dst).
Proof.
  intros Hoff Hn Hdst Hsrc. unfold memcpy.
  replace (0 <=? off) with true by (symmetry; now apply Z.leb_le).
  replace (0 <=? n) with true by (symmetry; now apply Z.leb_le).
  replace (off + n <=? Z.of_nat (length dst)) with true
    by (symmetry; now apply Z.leb_le).
  replace (n <=? Z.of_nat (length src)) with true
    by (symmetry; now apply Z.leb_le).
  reflexivity.
Qed.

(** The count [write] settles on, when the sum does not wrap. *)
Lemma write_size_clamped fill size :
  0 <= fill <= UDP_TX_PACKET_MAX_SIZE ->
  0 <= size ->
  fill + size < size_t_modulus ->
  (if to_size_t (fill + size) >? UDP_TX_PACKET_MAX_SIZE
   then to_size_t (UDP_TX_PACKET_MAX_SIZE - fill)
   else size)
  = Z.min size (UDP_TX_PACKET_MAX_SIZE - fill).
Proof.
  intros Hfill Hsize Hwrap.
  rewrite (to_size_t_small (fill + size)) by lia.
  rewrite Z.gtb_ltb.
  destruct (Z.ltb_spec UDP_TX_PACKET_MAX_SIZE (fill + size)).
  - rewrite to_size_t_small by lia. lia.
  - lia.
Qed.

(** Whether or not the object is bound, a request whose sum with the fill
    level does not wrap is cut down to the room left, copied behind the
    bytes already there, and its count returned. *)
Lemma write_accepts st buffer size (w : W) :
  Z.of_nat (length (tx_buf st)) = UDP_TX_PACKET_MAX_SIZE ->
  tx_invariant st ->
  0 <= size ->
  tx_fillLevel st + size < size_t_modulus ->
  Z.min size (UDP_TX_PACKET_MAX_SIZE - tx_fillLevel st)
    <= Z.of_nat (length buffer) ->
  let n := Z.min size (UDP_TX_PACKET_MAX_SIZE - tx_fillLevel st) in
  run (write buffer size st) w =
  Some (n,
        set_tx_fillLevel (tx_fillLevel st + n)
          (set_tx_buf
             (take (Z.to_nat (tx_fillLevel st)) (tx_buf st)
              ++ take (Z.to_nat n) buffer
              ++ drop (Z.to_nat (tx_fillLevel st + n)) (tx_buf st)) st),
        w).
Proof.
  intros Hlen [Hlo Hhi] Hsize Hwrap Hsrc n.
  unfold write. unfold_body.
  rewrite write_size_clamped by lia. fold n.
  rewrite memcpy_in_range by lia.
  reflexivity.
Qed.

End Write.

(** ** Socket lifecycle *)

Section Lifecycle.
Context `{Platform} {W : Type} `{Transport W}.

Lemma invoke_all_keeps_unbound ms :
  forall st (w : W) rets st' w',
    _sock st = NO_SOCKET_AVAIL ->
    run (invoke_all ms st) w = Some (rets, st', w') ->
    no_begin_succeeded ms rets ->
    _sock st' = NO_SOCKET_AVAIL.
Proof.
  induction ms as [|m ms IH]; intros st w rets st' w' Hsock Hrun Hrets.
  - cbn in Hrun. congruence.
  - cbn [invoke_all] in Hrun. rewrite run_bind in Hrun.
    destruct (run (invoke m st) w) as [[[r st1] w1]|] eqn:Hm; [|discriminate].
    rewrite run_bind in Hrun.
    destruct (run (invoke_all ms st1) w1) as [[[rs st2] w2]|] eqn:Hms;
      [|discriminate].
    cbn in Hrun. injection Hrun as <- <- <-.
    inversion Hrets as [|? ? ? ? Hr Hrs]; subst.
    eapply IH; [|exact Hms|exact Hrs].
    exact (post_run _ _ _ _ _ (invoke_keeps_unbound m st Hsock) Hm Hr).
Qed.

(** [stop] always returns; it marks the object unbound and leaves the
    descriptor it closed, and the whole transmit side, as they were. *)
Lemma stop_post st :
  post (stop st)
       (fun '(_, st') =>
          _sock st' = NO_SOCKET_AVAIL
          /\ _socketHandle st' = _socketHandle st
          /\ tx_buf st' = tx_buf st
          /\ tx_fillLevel st' = tx_fillLevel st
          /\ rx_currentIndex st' = 0
          /\ rx_fillLevel st' = 0).
Proof.
  unfold stop, flush. split_tests. cbn. auto 10.
Qed.

Lemma beginPacket_unbound st (w : W) ip port :
  _sock st = NO_SOCKET_AVAIL ->
  run (beginPacket ip port st) w = Some (0, st, w).
Proof.
  intros Hsock. unfold beginPacket. unfold_body.
  rewrite Hsock, Z.eqb_refl. reflexivity.
Qed.

(** C1, as amended: after [stop()], [beginPacket] returns 0 and changes
    nothing, whatever is called in between, until a [begin()] reports
    success; [write] is not guarded at all and goes on accepting as many
    bytes as fit behind the current fill level, returning that count. *)
Theorem after_stop_beginPacket_fails st (w : W) ms rets st' w' :
  run ((stop ;; invoke_all ms) st) w = Some (rets, st', w') ->
  no_begin_succeeded ms rets ->
  (forall ip port, run (beginPacket ip port st') w' = Some (0, st', w'))
  /\ (forall buffer size,
        Z.of_nat (length (tx_buf st')) = UDP_TX_PACKET_MAX_SIZE ->
        tx_invariant st' ->
        0 <= size ->
        tx_fillLevel st' + size < size_t_modulus ->
        Z.min size (UDP_TX_PACKET_MAX_SIZE - tx_fillLevel st')
          <= Z.of_nat (length buffer) ->
        returns (write buffer size st') w' =
        Some (Z.min size (UDP_TX_PACKET_MAX_SIZE - tx_fillLevel st'))).
Proof.
  intros Hrun Hrets. rewrite run_bind in Hrun.
  destruct (run (stop st) w) as [[[[] st1] w1]|] eqn:Hstop; [|discriminate].
  pose proof (post_run _ _ _ _ _ (stop_post st) Hstop) as (Hsock & _).
  pose proof (invoke_all_keeps_unbound ms _ _ _ _ _ Hsock Hrun Hrets)
    as Hsock'.
  split.
  - intros ip port. now apply beginPacket_unbound.
  - intros buffer size Hlen Htx Hsize Hwrap Hsrc. unfold returns.
    now rewrite write_accepts.
Qed.

End Lifecycle.

(** ** Sending *)

Section Sending.
Context `{Platform} {W : Type} `{Transport W}.

Lemma endPacket_run st (w w' : W) iRet :
  answer (endPacket_request st) w = (iRet, w') ->
  calls (endPacket st) w = [req (endPacket_request st)]
  /\ run (endPacket st) w =
     Some (if iRet <? 0 then (0, st)
           else (1, set_tx_fillLevel 0
                      (set_tx_buf (zeroes UDP_TX_PACKET_MAX_SIZE) st)),
           w').
Proof.
  unfold endPacket_request, sendAddress_of, endPacket. intros Hans.
  unfold_body. rewrite Hans.
  destruct (iRet <? 0); split; reflexivity.
Qed.

(** C5: [endPacket] makes one call, [sl_SendTo] on the object's
    descriptor with the transmit buffer, the fill level as the length and
    the recorded destination; it returns 0 exactly when that call
    reports an error, and then leaves the object as it was; otherwise it
    returns 1 with the fill level back at 0. *)
Theorem endPacket_sends st (w w' : W) iRet :
  answer (sl_SendTo (_socketHandle st) (tx_buf st) (tx_fillLevel st) 0
            (mkSockAddr SL_AF_INET (sl_Htons (_sendPort st))
               (sl_Htonl (_sendIP st)))) w = (iRet, w') ->
  calls (endPacket st) w =
    [req (sl_SendTo (_socketHandle st) (tx_buf st) (tx_fillLevel st) 0
            (mkSockAddr SL_AF_INET (sl_Htons (_sendPort st))
               (sl_Htonl (_sendIP st))))]
  /\ exists r st',
       run (endPacket st) w = Some (r, st', w')
       /\ (r = 0 <-> iRet < 0)
       /\ (iRet < 0 -> st' = st)
       /\ (0 <= iRet -> r = 1 /\ tx_fillLevel st' = 0).
Proof.
  intros Hans. destruct (endPacket_run st w w' iRet Hans) as [Hcalls Hrun].
  split; [exact Hcalls|]. rewrite Hrun.
  destruct (Z.ltb_spec iRet 0); do 2 eexists; (split; [reflexivity|]);
    cbn; repeat split; intros; try lia; try reflexivity.
Qed.

(** C10: [endPacket] never looks at [_sock].  On an unbound object it
    still hands [sl_SendTo] whatever [_socketHandle] holds, and its result
    is the transport's verdict on that call. *)
Theorem endPacket_unbound_still_sends st (w w' : W) iRet :
  _sock st = NO_SOCKET_AVAIL ->
  answer (endPacket_request st) w = (iRet, w') ->
  calls (endPacket st) w =
    [req (sl_SendTo (_socketHandle st) (tx_buf st) (tx_fillLevel st) 0
            (sendAddress_of st))]
  /\ returns (endPacket st) w = Some (if iRet <? 0 then 0 else 1).
Proof.
  intros _ Hans. destruct (endPacket_run st w w' iRet Hans) as [Hcalls Hrun].
  split; [exact Hcalls|]. unfold returns. rewrite Hrun.
  now destruct (iRet <? 0).
Qed.

End Sending.

(** ** Receiving *)

Section Receiving.
Context `{Platform} {W : Type} `{Transport W}.

(** C9: from any state [flush] puts the read cursor and the fill level
    at 0, and [available] called next returns 0. *)
Theorem flush_then_available (st : WiFiUDP) (w : W) :
  exists st',
    run (flush st) w = Some (tt, st', w)
    /\ rx_currentIndex st' = 0
    /\ rx_fillLevel st' = 0
    /\ run (available st') w = Some (0, st', w)
    /\ run ((flush ;; available) st) w = Some (0, st', w).
Proof.
  eexists. unfold flush, available. unfold_body.
  repeat split; reflexivity.
Qed.

(** C6: when the poll reports nothing to read and no error (it returns 0;
    the code treats a negative result the same way), [parsePacket]
    returns 0 and the object is exactly as before: receive buffer,
    cursor, fill level, sender address and port included. *)
Theorem parsePacket_timeout (st : WiFiUDP) (w w' : W) (iRet : Z) :
  _socketHandle st <> NO_SOCKET_AVAIL ->
  answer (sl_Select (_socketHandle st + 1) [_socketHandle st]
            [_socketHandle st] 0 10000) w = (iRet, w') ->
  iRet <= 0 ->
  run (parsePacket st) w = Some (0, st, w')
  /\ calls (parsePacket st) w = [req (poll_request st)].
Proof.
  intros Hh Hsel Hle. unfold poll_request, parsePacket. unfold_body.
  destruct (Z.eqb_spec (_socketHandle st) NO_SOCKET_AVAIL) as [E|_];
    [contradiction|].
  unfold_body. rewrite Hsel.
  destruct (Z.leb_spec iRet 0); [split; reflexivity | lia].
Qed.

(** C7: once the poll has reported something, [parsePacket] takes the
    sender's address and port from what [sl_RecvFrom] left in its address
    argument, whether or not the receive succeeded; on an error it sets
    the fill level to 0 and returns 0, otherwise it sets the cursor to 0
    and the fill level to the count received, and returns that count. *)
Theorem parsePacket_receive (st : WiFiUDP) (w w1 w2 : W) (iRet bytes : Z)
    (data : list byte) (address : SlSockAddrIn_t) :
  _socketHandle st <> NO_SOCKET_AVAIL ->
  answer (poll_request st) w = (iRet, w1) ->
  0 < iRet ->
  answer (receive_request st) w1 = (bytes, data, address, w2) ->
  exists r st',
    run (parsePacket st) w = Some (r, st', w2)
    /\ calls (parsePacket st) w
       = [req (poll_request st); req (receive_request st)]
    /\ _remoteIP st' = sl_Htonl (sin_addr address)
    /\ _remotePort st' = sl_Htons (sin_port address)
    /\ (bytes < 0 -> rx_fillLevel st' = 0 /\ r = 0)
    /\ (0 <= bytes ->
        rx_currentIndex st' = 0 /\ rx_fillLevel st' = bytes /\ r = bytes).
Proof.
  unfold poll_request, receive_request. intros Hh Hsel Hpos Hrecv.
  unfold parsePacket. unfold_body.
  destruct (Z.eqb_spec (_socketHandle st) NO_SOCKET_AVAIL) as [E|_];
    [contradiction|].
  unfold_body. rewrite Hsel.
  destruct (Z.leb_spec iRet 0); [lia|].
  unfold_body. rewrite Hrecv.
  destruct (Z.ltb_spec bytes 0); unfold_body; do 2 eexists;
    (split; [reflexivity|]); cbn; repeat split; intros; try lia;
    reflexivity.
Qed.

(** A failed receive leaves the read cursor where it was. *)
Lemma parsePacket_error_keeps_cursor (st : WiFiUDP) (w w1 w2 : W)
    (iRet bytes : Z) (data : list byte) (address : SlSockAddrIn_t) :
  _socketHandle st <> NO_SOCKET_AVAIL ->
  answer (poll_request st) w = (iRet, w1) ->
  0 < iRet ->
  answer (receive_request st) w1 = (bytes, data, address, w2) ->
  bytes < 0 ->
  exists st',
    final (parsePacket st) w = Some st'
    /\ rx_currentIndex st' = rx_currentIndex st
    /\ rx_fillLevel st' = 0.
Proof.
  unfold poll_request, receive_request, final.
  intros Hh Hsel Hpos Hrecv Hneg.
  unfold parsePacket. unfold_body.
  destruct (Z.eqb_spec (_socketHandle st) NO_SOCKET_AVAIL) as [E|_];
    [contradiction|].
  unfold_body. rewrite Hsel.
  destruct (Z.leb_spec iRet 0); [lia|].
  unfold_body. rewrite Hrecv.
  destruct (Z.ltb_spec bytes 0); [|lia].
  unfold_body. eexists. repeat split.
Qed.

End Receiving.

(** ** Reading the packet out *)

Section Reading.
Context `{Platform} {W : Type} `{Transport W}.

Lemma set_rx_currentIndex_same st :
  set_rx_currentIndex (rx_currentIndex st) st = st.
Proof. now destruct st. Qed.

Lemma set_rx_currentIndex_twice a b st :
  set_rx_currentIndex a (set_rx_currentIndex b st) = set_rx_currentIndex a st.
Proof. reflexivity. Qed.

(** With the fuel [read_buf] passes, the loop is left only because its
    condition has become false. *)
Lemma read_loop_exits fuel :
  forall len buffer bytesCopied st,
    rx_fillLevel st - rx_currentIndex st <= Z.of_nat fuel ->
    post (read_loop fuel len buffer bytesCopied st)
         (fun '(r, st') => read_loop_cond len (fst r) st' = false).
Proof.
  induction fuel as [|fuel IH]; intros len buffer bytesCopied st Hfuel;
    simpl; unfold_body.
  - fold (read_loop_cond len bytesCopied st).
    destruct (read_loop_cond len bytesCopied st) eqn:Hc; cbn; [|exact Hc].
    unfold read_loop_cond in Hc. apply andb_true_iff in Hc as [_ Hc].
    apply Z.ltb_lt in Hc. lia.
  - fold (read_loop_cond len bytesCopied st).
    destruct (read_loop_cond len bytesCopied st) eqn:Hc; cbn; [|exact Hc].
    destruct (load (rx_buf st) (rx_currentIndex st)); cbn; [|exact I].
    destruct (store buffer bytesCopied b); cbn; [|exact I].
    apply IH. cbn. lia.
Qed.

Lemma read_buf_exits buffer len st :
  post (read_buf buffer len st)
       (fun '(r, st') => read_loop_cond len (fst r) st' = false).
Proof.
  unfold read_buf. unfold_body. apply read_loop_exits. lia.
Qed.

Lemma load_in_range a i :
  0 <= i < Z.of_nat (length a) -> exists b, load a i = Some b.
Proof.
  intros Hi. unfold load.
  destruct (Z.leb_spec 0 i); [|lia].
  destruct (lookup_lt_is_Some_2 a (Z.to_nat i)) as [b Hb]; [lia|].
  eauto.
Qed.

Lemma store_in_range a i b :
  0 <= i < Z.of_nat (length a) ->
  store a i b = Some (<[Z.to_nat i := b]> a).
Proof.
  intros Hi. unfold store.
  destruct (Z.leb_spec 0 i); [|lia].
  destruct (Z.ltb_spec i (Z.of_nat (length a))); [|lia].
  reflexivity.
Qed.

(** How many bytes the loop copies: it stops one past [len], or when the
    packet is used up. *)
Lemma read_loop_count fuel :
  forall len buffer bytesCopied st (w : W),
    0 <= bytesCopied <= len + 1 ->
    len + 1 < size_t_modulus ->
    0 <= rx_currentIndex st ->
    rx_fillLevel st <= Z.of_nat (length (rx_buf st)) ->
    rx_fillLevel st - rx_currentIndex st <= Z.of_nat fuel ->
    let n := Z.min (len + 1 - bytesCopied)
               (Z.max 0 (rx_fillLevel st - rx_currentIndex st)) in
    bytesCopied + n <= Z.of_nat (length buffer) ->
    exists buffer',
      run (read_loop fuel len buffer bytesCopied st) w =
        Some (bytesCopied + n, buffer',
              set_rx_currentIndex (rx_currentIndex st + n) st, w)
      /\ length buffer' = length buffer.
Proof.
  induction fuel as [|fuel IH];
    intros len buffer bytesCopied st w Hc Hlen Hidx Hfill Hfuel n Hroom;
    simpl; unfold_body.
  - destruct (Z.ltb_spec (rx_currentIndex st) (rx_fillLevel st)); [lia|].
    rewrite andb_false_r. cbn.
    replace n with 0 by (unfold n; lia).
    rewrite !Z.add_0_r, set_rx_currentIndex_same.
    eauto.
  - rewrite to_size_t_small by lia.
    destruct (Z.leb_spec bytesCopied len) as [Hle|Hgt];
      destruct (Z.ltb_spec (rx_currentIndex st) (rx_fillLevel st))
        as [Hlt|Hge]; cbn.
    2-4: replace n with 0 by (unfold n; lia);
         rewrite !Z.add_0_r, set_rx_currentIndex_same; eauto.
    unfold n in *. clear n.
    destruct (load_in_range (rx_buf st) (rx_currentIndex st)) as [b ->];
      [lia|]. cbn.
    rewrite store_in_range by lia. cbn.
    destruct (IH len (<[Z.to_nat bytesCopied := b]> buffer)
                (bytesCopied + 1)
                (set_rx_currentIndex (rx_currentIndex st + 1) st) w)
      as (buffer' & Hrun & Hlen'); cbn; try lia.
    + rewrite length_insert. clear - Hroom Hle Hlt. lia.
    + exists buffer'. rewrite Hrun. split.
      * cbn. rewrite set_rx_currentIndex_twice.
        match goal with
        | |- Some (?a, _, set_rx_currentIndex ?x _, _)
             = Some (?a', _, set_rx_currentIndex ?x' _, _) =>
            replace a with a' by (clear - Hle Hlt; lia);
            replace x with x' by (clear - Hle Hlt; lia)
        end.
        reflexivity.
      * now rewrite Hlen', length_insert.
Qed.

(** [read(buffer, len)] returns [min (len + 1) unread]. *)
Lemma read_buf_count buffer len st (w : W) :
  0 <= len ->
  len + 1 < size_t_modulus ->
  0 <= rx_currentIndex st ->
  rx_fillLevel st <= Z.of_nat (length (rx_buf st)) ->
  let n := Z.min (len + 1) (Z.max 0 (rx_fillLevel st - rx_currentIndex st)) in
  n <= Z.of_nat (length buffer) ->
  exists buffer',
    run (read_buf buffer len st) w =
      Some (n, buffer', set_rx_currentIndex (rx_currentIndex st + n) st, w)
    /\ length buffer' = length buffer.
Proof.
  intros Hlen Hmax Hidx Hfill n Hroom. unfold n in *. clear n.
  unfold read_buf. unfold_body.
  destruct (read_loop_count
              (Z.to_nat (rx_fillLevel st - rx_currentIndex st))
              len buffer 0 st w) as (buffer' & Hrun & Hlen'); try lia.
  exists buffer'. rewrite Hrun. split; [|exact Hlen'].
  now rewrite Z.sub_0_r, Z.add_0_l.
Qed.

End Reading.

(** ** The receive-side invariant *)

Section RxInvariant.
Context `{Platform}.

Lemma ctor_rx_invariant port0 handle0 sendIP0 sendPort0 :
  0 <= UDP_RX_PACKET_MAX_SIZE ->
  rx_invariant (WiFiUDP_ctor port0 handle0 sendIP0 sendPort0).
Proof. intros Hcap. unfold rx_invariant. cbn. lia. Qed.

Lemma read_loop_keeps_rx_invariant fuel :
  forall len buffer bytesCopied st,
    rx_invariant st ->
    post (read_loop fuel len buffer bytesCopied st)
         (fun '(_, st') => rx_invariant st').
Proof.
  induction fuel as [|fuel IH]; intros len buffer bytesCopied st Hinv;
    simpl; unfold_body.
  - now destruct (_ && _).
  - destruct (Z.ltb_spec (rx_currentIndex st) (rx_fillLevel st)) as [Hlt|Hge].
    2: { rewrite andb_false_r. exact Hinv. }
    destruct (to_size_t bytesCopied <=? len); cbn; [|exact Hinv].
    destruct (load (rx_buf st) (rx_currentIndex st)); cbn; [|exact I].
    destruct (store buffer bytesCopied b); cbn; [|exact I].
    apply IH. unfold rx_invariant in *. cbn. lia.
Qed.

(** X10: Every member function but [parsePacket] keeps
    [0 <= rx_currentIndex <= rx_fillLevel <= UDP_RX_PACKET_MAX_SIZE]. *)
Lemma invoke_keeps_rx_invariant m st :
  rx_invariant st ->
  m <> m_parsePacket ->
  post (invoke m st) (fun '(_, st') => rx_invariant st').
Proof.
  intros Hinv Hm. destruct m; simpl; try contradiction.
  all: try (unfold begin, available, stop, flush, beginPacket_host,
              beginPacket, endPacket, write_byte, write, peek, remoteIP,
              remotePort; split_tests; unfold rx_invariant in *; cbn; lia).
  - (* read() *)
    unfold read. unfold_body.
    destruct (Z.geb_spec (rx_currentIndex st) (rx_fillLevel st)); cbn;
      [exact Hinv|].
    destruct (load (rx_buf st) (rx_currentIndex st)); cbn; [|exact I].
    unfold rx_invariant in *. cbn. lia.
  - (* read(buffer, len) *)
    unfold read_buf. unfold_body. apply post_pbind.
    eapply post_weaken; [|apply read_loop_keeps_rx_invariant, Hinv].
    intros [r st'] Hst'. exact Hst'.
Qed.

(** X11: [parsePacket] keeps it too, except when a receive fails after part of
    a packet has been read, or when the transport reports more bytes
    than it was given room for. *)
Lemma parsePacket_rx_invariant st :
  rx_invariant st ->
  post (parsePacket st)
       (fun '(_, st') =>
          rx_invariant st'
          \/ (rx_fillLevel st' = 0
              /\ rx_currentIndex st' = rx_currentIndex st
              /\ 0 < rx_currentIndex st)
          \/ UDP_RX_PACKET_MAX_SIZE < rx_fillLevel st').
Proof.
  intros Hinv. unfold parsePacket. unfold_body.
  destruct (_socketHandle st =? NO_SOCKET_AVAIL); cbn; [now left|].
  intros iRet. destruct (iRet <=? 0); cbn; [now left|].
  intros [[bytes data] address]. unfold_body.
  destruct (Z.ltb_spec bytes 0); cbn; unfold rx_invariant in *; cbn; lia.
Qed.

(** On a bound object [beginPacket] returns 1, records the destination
    and empties the transmit buffer; it also puts the read cursor back
    to 0. *)
Lemma beginPacket_bound `{Transport W} st (w : W) ip port :
  bound st ->
  run (beginPacket ip port st) w =
  Some (1,
        set_tx_fillLevel 0
          (set_rx_currentIndex 0
             (set_tx_buf (zeroes UDP_TX_PACKET_MAX_SIZE)
                (set_sendPort port (set_sendIP ip st)))),
        w).
Proof.
  intros Hb. unfold beginPacket. unfold_body.
  destruct (Z.eqb_spec (_sock st) NO_SOCKET_AVAIL); [contradiction|].
  reflexivity.
Qed.

End RxInvariant.

(** ** The sample session, evaluated *)

Section Evaluation.
Import Sample Session.
#[local] Existing Instances platform transport.

Lemma after_stop_beginPacket_fails_witness :
  run (beginPacket 3232235777 9000 later_state) idle
    = Some (0, later_state, idle)
  /\ returns (write hello 5 later_state) idle = Some 5.
Proof.
  assert (Hrun : run ((stop ;; invoke_all after_stop) hello_state) bound_net
                 = Some ([5; 0; 0; 0], later_state, idle))
    by (vm_compute; reflexivity).
  assert (Hrets : no_begin_succeeded after_stop [5; 0; 0; 0])
    by (repeat constructor; discriminate).
  destruct (after_stop_beginPacket_fails hello_state bound_net after_stop
              [5; 0; 0; 0] later_state idle Hrun Hrets) as [Hb Hw].
  split.
  - apply Hb.
  - apply (Hw hello 5).
    + vm_compute; reflexivity.
    + unfold tx_invariant; cbn; lia.
    + lia.
    + unfold size_t_modulus; cbn; lia.
    + cbn; lia.
Defined.

(** C1, as stated, fails: on an object that was bound and then stopped,
    [write] of five bytes returns 5, not 0. *)
Lemma write_after_stop_is_accepted :
  returns (invoke_all [m_begin 8000; m_stop; m_write hello 5] fresh) idle
    = Some [1; 0; 5]
  /\ 5 <> 0.
Proof.
  split; [vm_compute; reflexivity | lia].
Qed.

(** After [stop] the descriptor is still in [_socketHandle], so
    [parsePacket] passes its own guard and polls the closed descriptor. *)
Lemma parsePacket_after_stop_still_polls :
  _socketHandle stopped_state = 0
  /\ calls (parsePacket stopped_state) idle
     = [req (sl_Select 1 [0] [0] 0 10000)].
Proof.
  split; vm_compute; reflexivity.
Qed.

Lemma endPacket_sends_witness :
  calls (endPacket hello_state) bound_net
    = [req (sl_SendTo 0 (tx_buf hello_state) 5 0 peer)]
  /\ returns (endPacket hello_state) bound_net = Some 1
  /\ final (endPacket hello_state) bound_net
     = Some (set_tx_fillLevel 0 (set_tx_buf (zeroes 1024) hello_state)).
Proof.
  assert (Hans : answer (sl_SendTo (_socketHandle hello_state)
                           (tx_buf hello_state) (tx_fillLevel hello_state) 0
                           (mkSockAddr SL_AF_INET
                              (sl_Htons (_sendPort hello_state))
                              (sl_Htonl (_sendIP hello_state)))) bound_net
                 = (5, sent_net))
    by (vm_compute; reflexivity).
  destruct (endPacket_sends hello_state bound_net sent_net 5 Hans)
    as [Hcalls _].
  split; [exact Hcalls|]. split; vm_compute; reflexivity.
Defined.

Lemma endPacket_unbound_still_sends_witness :
  _sock stopped_state = NO_SOCKET_AVAIL
  /\ calls (endPacket stopped_state) bound_net
     = [req (sl_SendTo 0 (tx_buf stopped_state) 5 0 peer)]
  /\ returns (endPacket stopped_state) bound_net = Some 1.
Proof.
  assert (Hsock : _sock stopped_state = NO_SOCKET_AVAIL) by reflexivity.
  assert (Hans : answer (endPacket_request stopped_state) bound_net
                 = (5, sent_net))
    by (vm_compute; reflexivity).
  split; [exact Hsock|].
  exact (endPacket_unbound_still_sends stopped_state bound_net sent_net 5
           Hsock Hans).
Defined.

Lemma parsePacket_timeout_witness :
  run (parsePacket bound_state) bound_net = Some (0, bound_state, bound_net)
  /\ calls (parsePacket bound_state) bound_net
     = [req (poll_request bound_state)].
Proof.
  apply (parsePacket_timeout bound_state bound_net bound_net 0).
  - vm_compute; discriminate.
  - vm_compute; reflexivity.
  - lia.
Defined.

Lemma parsePacket_receive_witness :
  (exists r st',
     run (parsePacket bound_state) (mkNet [0] [Datagram digits peer] [])
       = Some (r, st', bound_net)
     /\ _remoteIP st' = 3232235777
     /\ _remotePort st' = 9000
     /\ rx_currentIndex st' = 0 /\ rx_fillLevel st' = 10 /\ r = 10)
  /\ (exists r st',
        run (parsePacket bound_state) (mkNet [0] [RecvError (-1) peer] [])
          = Some (r, st', bound_net)
        /\ _remoteIP st' = 3232235777
        /\ _remotePort st' = 9000
        /\ rx_fillLevel st' = 0 /\ r = 0).
Proof.
  assert (Hh : _socketHandle bound_state <> NO_SOCKET_AVAIL)
    by (vm_compute; discriminate).
  split.
  - destruct (parsePacket_receive bound_state
                (mkNet [0] [Datagram digits peer] [])
                (mkNet [0] [Datagram digits peer] []) bound_net
                1 10 digits peer Hh)
      as (r & st' & Hrun & _ & Hip & Hport & _ & Hok);
      [vm_compute; reflexivity | lia | vm_compute; reflexivity |].
    exists r, st'. destruct Hok as (Hc & Hf & Hr); [lia|].
    repeat split; assumption.
  - destruct (parsePacket_receive bound_state
                (mkNet [0] [RecvError (-1) peer] [])
                (mkNet [0] [RecvError (-1) peer] []) bound_net
                1 (-1) [] peer Hh)
      as (r & st' & Hrun & _ & Hip & Hport & Herr & _);
      [vm_compute; reflexivity | lia | vm_compute; reflexivity |].
    exists r, st'. destruct Herr as (Hf & Hr); [lia|].
    repeat split; assumption.
Defined.

(** C2 fails on the code: a datagram arrives and one byte of it is read;
    the next poll reports the socket ready but the receive fails.  The
    fill level drops to 0 while the cursor stays at 1. *)
Theorem failed_receive_breaks_rx_invariant :
  exists st,
    final (invoke_all [m_begin 8000; m_parsePacket; m_read; m_parsePacket]
             fresh) lossy = Some st
    /\ rx_currentIndex st = 1
    /\ rx_fillLevel st = 0
    /\ ~ rx_invariant st.
Proof.
  eexists. split; [vm_compute; reflexivity|].
  split; [reflexivity|]. split; [reflexivity|].
  unfold rx_invariant. cbn. lia.
Qed.

(** C3 fails on the code: with ten bytes unread, [read(buffer, 4)] stores
    five bytes and returns 5; with one byte unread, [read(buffer, 0)]
    stores one byte and returns 1; and when the caller's array has just
    the four cells asked for, the fifth store lands outside it. *)
Theorem read_buf_copies_one_too_many :
  returns ((invoke_all [m_begin 8000; m_parsePacket] ;;
            read_buf (replicate 8 x00) 4) fresh) incoming
    = Some (5, [x30; x31; x32; x33; x34; x00; x00; x00])
  /\ returns ((invoke_all [m_begin 8000; m_parsePacket] ;;
               read_buf [x00] 0) fresh) incoming
     = Some (1, [x30])
  /\ run ((invoke_all [m_begin 8000; m_parsePacket] ;;
           read_buf (replicate 4 x00) 4) fresh) incoming
     = None.
Proof.
  repeat split; vm_compute; reflexivity.
Qed.

(** C4 fails on the code at the top of [size_t]: with one byte already in
    the transmit buffer, a request of [2^32 - 1] bytes makes the sum wrap
    to 0, the request is not cut down, and the copy runs off the end of
    the buffer.  One byte less and the request is cut down to the 1023
    bytes that fit. *)
Theorem write_sum_wraps :
  to_size_t (1 + 4294967295) = 0
  /\ run ((write_byte x00 ;; write (replicate 1023 x01) 4294967295) fresh)
       idle = None
  /\ returns ((write_byte x00 ;; write (replicate 1023 x01) 4294967294)
                fresh) idle = Some 1023.
Proof.
  repeat split; vm_compute; reflexivity.
Qed.

(** C8 fails on the code: with two of ten received bytes read,
    [available] returns 8; after [beginPacket] it returns 10, the read
    cursor having been put back to 0. *)
Theorem beginPacket_rewinds_read_cursor :
  returns (invoke_all [m_begin 8000; m_parsePacket; m_read; m_read;
                       m_available; m_beginPacket 3232235777 9000;
                       m_available] fresh) incoming
    = Some [1; 10; 48; 49; 8; 1; 10].
Proof.
  vm_compute; reflexivity.
Qed.

End Evaluation.

(** * Further properties of the member functions *)

(** ** Bodies that cannot fault *)

Section Always.
Context {W : Type} `{Transport W}.

Lemma always_run {A} (p : prog A) (Q : A -> Prop) (w : W) :
  always p Q -> exists a w', run p w = Some (a, w') /\ Q a.
Proof.
  revert w. induction p as [x| |R e k IH]; cbn; intros w HQ.
  - eauto.
  - contradiction.
  - destruct (answer e w) as [r w1]. eauto.
Qed.

End Always.

Lemma always_weaken {A} (p : prog A) (Q Q' : A -> Prop) :
  (forall a, Q a -> Q' a) -> always p Q -> always p Q'.
Proof.
  intros HQ. induction p as [x| |R e k IH]; cbn; auto.
Qed.

Lemma always_pbind {A B} (p : prog A) (f : A -> prog B) (Q : B -> Prop) :
  always p (fun a => always (f a) Q) -> always (pbind p f) Q.
Proof.
  induction p as [x| |R e k IH]; cbn; auto.
Qed.

Lemma always_post {A} (p : prog A) (Q : A -> Prop) :
  always p Q -> post p Q.
Proof.
  induction p as [x| |R e k IH]; cbn; auto.
Qed.

Ltac unfold_always :=
  unfold bind, get, upd, ret, call, defined in *;
  cbn [pbind post always run calls fst snd] in *.

Ltac split_always :=
  repeat (unfold_always; intros;
          try match goal with
          | |- context [if ?b then _ else _] => destruct b eqn:?
          | |- context [let '(_, _) := ?r in _] => destruct r
          end).

(** ** [begin] and [stop] *)

Section BeginStop.
Context `{Platform} {W : Type} `{Transport W}.

(** X1: [begin] never faults.  Either it returns 0 and the object is as it
    was, or it returns 1 and the object is bound to a non-negative
    descriptor with [_port] set; nothing but [_sock], [_port] and
    [_socketHandle] changes, so the buffers, an unread packet included,
    survive it. *)
Theorem begin_outcome port st :
  always (begin port st)
    (fun '(r, st') =>
       (r = 0 /\ st' = st)
       \/ (r = 1
           /\ _sock st' <> NO_SOCKET_AVAIL
           /\ 0 <= _socketHandle st'
           /\ _port st' = port
           /\ st' = set_sock (_sock st')
                      (set_port port
                         (set_socketHandle (_socketHandle st') st)))).
Proof.
  unfold begin. split_always; auto.
  right. cbn. repeat split.
  - now apply Z.eqb_neq.
  - now apply Z.ltb_ge.
Qed.

(** X2: When the bind fails, [begin] closes the socket it has just created,
    does not touch the slot table, returns 0 and leaves the object as it
    was. *)
Theorem begin_bind_failure_closes port st (w w1 w2 w3 w4 : W)
    sock socketHandle iRet closed :
  answer WiFiClass_getSocket w = (sock, w1) ->
  sock <> NO_SOCKET_AVAIL ->
  answer (sl_Socket SL_AF_INET SL_SOCK_DGRAM IPPROTO_UDP) w1
    = (socketHandle, w2) ->
  0 <= socketHandle ->
  answer (sl_Bind socketHandle (mkSockAddr SL_AF_INET (sl_Htons port) 0)) w2
    = (iRet, w3) ->
  iRet < 0 ->
  answer (sl_Close socketHandle) w3 = (closed, w4) ->
  run (begin port st) w = Some (0, st, w4)
  /\ calls (begin port st) w
     = [req WiFiClass_getSocket;
        req (sl_Socket SL_AF_INET SL_SOCK_DGRAM IPPROTO_UDP);
        req (sl_Bind socketHandle (mkSockAddr SL_AF_INET (sl_Htons port) 0));
        req (sl_Close socketHandle)].
Proof.
  intros Hsock Hno Hcreate Hh Hbind Hfail Hclose.
  unfold begin. unfold_always. rewrite Hsock.
  destruct (Z.eqb_spec sock NO_SOCKET_AVAIL); [contradiction|].
  unfold_always. rewrite Hcreate.
  destruct (Z.ltb_spec socketHandle 0); [lia|].
  unfold_always. rewrite Hbind.
  destruct (Z.ltb_spec iRet 0); [|lia].
  unfold_always. rewrite Hclose. split; reflexivity.
Qed.

(** X3: When no slot is free, [begin] gives up before asking the transport for
    a socket. *)
Theorem begin_no_slot port st (w w1 : W) :
  answer WiFiClass_getSocket w = (NO_SOCKET_AVAIL, w1) ->
  run (begin port st) w = Some (0, st, w1)
  /\ calls (begin port st) w = [req WiFiClass_getSocket].
Proof.
  intros Hsock. unfold begin. unfold_always. rewrite Hsock, Z.eqb_refl.
  split; reflexivity.
Qed.

(** X4: On an unbound object, [beginPacket] called right after [begin]
    returns what [begin] returned: 1 if the bind went through, 0 if not. *)
Theorem begin_then_beginPacket port ip port' st :
  _sock st = NO_SOCKET_AVAIL ->
  always ((r <- begin port ;; r' <- beginPacket ip port' ;; ret (r, r')) st)
    (fun '(rs, _) => snd rs = fst rs).
Proof.
  intros Hsock. unfold begin, beginPacket. split_always; try reflexivity.
  all: cbn in *;
    repeat match goal with
           | E : (_ =? _) = true |- _ => apply Z.eqb_eq in E
           | E : (_ =? _) = false |- _ => apply Z.eqb_neq in E
           end; congruence.
Qed.

(** X5: [stop] called twice leaves the object as one [stop] does, but closes
    the same descriptor a second time and clears the slot-table entry
    numbered [NO_SOCKET_AVAIL]. *)
Theorem stop_twice st (w : W) :
  final ((stop ;; stop) st) w = final (stop st) w
  /\ calls ((stop ;; stop) st) w
     = [req (sl_Close (_socketHandle st));
        req (WiFiClass_server_port (_sock st) 0);
        req (sl_Close (_socketHandle st));
        req (WiFiClass_server_port NO_SOCKET_AVAIL 0)].
Proof.
  unfold final, stop, flush. unfold_always. cbn.
  destruct (answer (sl_Close (_socketHandle st)) w) as [c1 w1]. cbn.
  destruct (answer (WiFiClass_server_port (_sock st) 0) w1) as [[] w2]. cbn.
  destruct (answer (sl_Close (_socketHandle st)) w2) as [c2 w3]. cbn.
  destruct (answer (WiFiClass_server_port NO_SOCKET_AVAIL 0) w3) as [[] w4].
  split; reflexivity.
Qed.

End BeginStop.

(** ** Assembling and sending a packet *)

Section Assembling.
Context `{Platform} {W : Type} `{Transport W}.

Lemma memcpy_length dst off src n dst' :
  memcpy dst off src n = Some dst' -> length dst' = length dst.
Proof.
  unfold memcpy.
  destruct (Z.leb_spec 0 off); [|discriminate].
  destruct (Z.leb_spec 0 n); [|discriminate].
  destruct (Z.leb_spec (off + n) (Z.of_nat (length dst))); [|discriminate].
  destruct (Z.leb_spec n (Z.of_nat (length src))); [|discriminate].
  cbn. intros [= <-].
  rewrite !length_app, !length_take, length_drop. lia.
Qed.

Lemma write_grows st buffer size (w : W) :
  Z.of_nat (length (tx_buf st)) = UDP_TX_PACKET_MAX_SIZE ->
  tx_invariant st ->
  0 <= size ->
  tx_fillLevel st + size < size_t_modulus ->
  Z.min size (UDP_TX_PACKET_MAX_SIZE - tx_fillLevel st)
    <= Z.of_nat (length buffer) ->
  exists st',
    run (write buffer size st) w
      = Some (Z.min size (UDP_TX_PACKET_MAX_SIZE - tx_fillLevel st), st', w)
    /\ tx_fillLevel st'
       = tx_fillLevel st
         + Z.min size (UDP_TX_PACKET_MAX_SIZE - tx_fillLevel st)
    /\ tx_fillLevel st' <= UDP_TX_PACKET_MAX_SIZE
    /\ length (tx_buf st') = length (tx_buf st)
    /\ pending st'
       = pending st
         ++ take (Z.to_nat
                    (Z.min size (UDP_TX_PACKET_MAX_SIZE - tx_fillLevel st)))
              buffer
    /\ st' = set_tx_fillLevel (tx_fillLevel st') (set_tx_buf (tx_buf st') st).
Proof.
  intros Hlen Hinv Hsize Hwrap Hsrc.
  pose proof Hinv as [Hlo Hhi].
  eexists. split; [now apply write_accepts|].
  set (n := Z.min size (UDP_TX_PACKET_MAX_SIZE - tx_fillLevel st)) in *.
  cbn. repeat split; try lia.
  - rewrite !length_app, !length_take, length_drop. lia.
  - unfold pending. cbn.
    rewrite app_assoc, take_app_length'; [reflexivity|].
    rewrite length_app, !length_take. lia.
Qed.

(** X6: [write], for a request whose sum with the fill level does not wrap
    [size_t]: it accepts [min size room] bytes, appends them to the packet
    under assembly, keeps the array and the destination as they are, and
    never takes the fill level past the capacity. *)
Theorem write_appends st buffer size (w : W) :
  Z.of_nat (length (tx_buf st)) = UDP_TX_PACKET_MAX_SIZE ->
  tx_invariant st ->
  0 <= size ->
  tx_fillLevel st + size < size_t_modulus ->
  Z.min size (UDP_TX_PACKET_MAX_SIZE - tx_fillLevel st)
    <= Z.of_nat (length buffer) ->
  exists st',
    run (write buffer size st) w
      = Some (Z.min size (UDP_TX_PACKET_MAX_SIZE - tx_fillLevel st), st', w)
    /\ tx_fillLevel st'
       = tx_fillLevel st
         + Z.min size (UDP_TX_PACKET_MAX_SIZE - tx_fillLevel st)
    /\ tx_fillLevel st' <= UDP_TX_PACKET_MAX_SIZE
    /\ length (tx_buf st') = length (tx_buf st)
    /\ pending st'
       = pending st
         ++ take (Z.to_nat
                    (Z.min size (UDP_TX_PACKET_MAX_SIZE - tx_fillLevel st)))
              buffer
    /\ st' = set_tx_fillLevel (tx_fillLevel st') (set_tx_buf (tx_buf st') st).
Proof.
  intros Hlen Hinv Hsize Hwrap Hsrc.
  pose proof Hinv as [Hlo Hhi].
  eexists. split; [now apply write_accepts|].
  set (n := Z.min size (UDP_TX_PACKET_MAX_SIZE - tx_fillLevel st)) in *.
  cbn. repeat split; try lia.
  - rewrite !length_app, !length_take, length_drop. lia.
  - unfold pending. cbn.
    rewrite app_assoc, take_app_length'; [reflexivity|].
    rewrite length_app, !length_take. lia.
Qed.


Lemma calls_bind {A B} (m : M A) (f : A -> M B) (st : WiFiUDP) (w : W) :
  calls (bind m f st) w =
  calls (m st) w ++
  match run (m st) w with
  | Some (a, st1, w1) => calls (f a st1) w1
  | None => []
  end.
Proof.
  unfold bind. rewrite calls_pbind.
  destruct (run (m st) w) as [[[a st1] w1]|]; reflexivity.
Qed.

Lemma write_calls_nothing st buffer size (w : W) :
  calls (write buffer size st) w = [].
Proof.
  unfold write. unfold_always. now destruct (memcpy _ _ _ _).
Qed.

Lemma beginPacket_calls_nothing st ip port (w : W) :
  calls (beginPacket ip port st) w = [].
Proof.
  unfold beginPacket. unfold_always.
  now destruct (_sock st =? NO_SOCKET_AVAIL).
Qed.

Lemma length_zeroes n : 0 <= n -> Z.of_nat (length (zeroes n)) = n.
Proof. intros Hn. unfold zeroes. rewrite length_replicate. lia. Qed.

(** X8: What was written between [beginPacket] and [endPacket] is what is
    sent: on a bound object, after [beginPacket(ip, port)] and two
    [write]s that fit, [endPacket] makes a single [sl_SendTo] call, on the
    object's descriptor, for the destination given, whose length is the
    total written and whose first bytes are the two arguments in order. *)
Theorem packet_round_trip st a b ip port (w : W) :
  bound st ->
  Z.of_nat (length a) + Z.of_nat (length b) <= UDP_TX_PACKET_MAX_SIZE ->
  UDP_TX_PACKET_MAX_SIZE < size_t_modulus ->
  exists buf,
    calls ((beginPacket ip port ;;
            write a (Z.of_nat (length a)) ;;
            write b (Z.of_nat (length b)) ;;
            endPacket) st) w
      = [req (sl_SendTo (_socketHandle st) buf
                (Z.of_nat (length a) + Z.of_nat (length b)) 0
                (mkSockAddr SL_AF_INET (sl_Htons port) (sl_Htonl ip)))]
    /\ take (length a + length b) buf = a ++ b.
Proof.
  intros Hb Hfit Hcap.
  pose proof (beginPacket_bound st w ip port Hb) as H1.
  set (st1 := set_tx_fillLevel 0 _) in H1.
  assert (Hlen1 : Z.of_nat (length (tx_buf st1)) = UDP_TX_PACKET_MAX_SIZE)
    by (apply length_zeroes; lia).
  destruct (write_grows st1 a (Z.of_nat (length a)) w)
    as (st2 & H2 & Hfill2 & _ & Hlen2 & Hpend2 & Hst2);
    [exact Hlen1 | unfold tx_invariant; cbn; lia | lia | cbn; lia
    | cbn; lia |].
  cbn [tx_fillLevel st1 set_tx_fillLevel] in H2, Hfill2, Hpend2.
  rewrite Z.sub_0_r, Z.min_l in H2, Hfill2, Hpend2 by lia.
  destruct (write_grows st2 b (Z.of_nat (length b)) w)
    as (st3 & H3 & Hfill3 & _ & Hlen3 & Hpend3 & Hst3);
    [lia | unfold tx_invariant; lia | lia | lia | lia |].
  rewrite Hfill2 in H3, Hfill3, Hpend3.
  rewrite Z.min_l in H3, Hfill3, Hpend3 by lia.
  rewrite Hpend2 in Hpend3. unfold pending in Hpend3. cbn in Hpend3.
  rewrite !Nat2Z.id, !firstn_all in Hpend3.
  change (Z.to_nat 0) with 0%nat in Hpend3. rewrite take_0 in Hpend3.
  assert (Hframe : _socketHandle st3 = _socketHandle st
                   /\ _sendPort st3 = port /\ _sendIP st3 = ip)
    by (rewrite Hst3; cbn; rewrite Hst2; cbn; auto).
  destruct Hframe as (Hh & Hport & Hip).
  exists (tx_buf st3).
  rewrite calls_bind, beginPacket_calls_nothing, H1. cbn [app].
  rewrite calls_bind, write_calls_nothing, H2. cbn [app].
  rewrite calls_bind, write_calls_nothing, H3. cbn [app].
  destruct (answer (endPacket_request st3) w) as [iRet w'] eqn:Hans.
  destruct (endPacket_run st3 w w' iRet Hans) as [-> _].
  split.
  - unfold endPacket_request, sendAddress_of.
    rewrite Hh, Hport, Hip, Hfill3, Z.add_0_l. reflexivity.
  - cbn [app] in Hpend3. rewrite <- Hpend3, Hfill3, Z.add_0_l.
    f_equal. lia.
Qed.

Lemma memcpy_inv dst off src n dst' :
  memcpy dst off src n = Some dst' ->
  0 <= off /\ 0 <= n /\ off + n <= Z.of_nat (length dst)
  /\ length dst' = length dst.
Proof.
  intros Hcpy. pose proof (memcpy_length _ _ _ _ _ Hcpy) as Hlen.
  unfold memcpy in Hcpy.
  destruct (Z.leb_spec 0 off); [|discriminate].
  destruct (Z.leb_spec 0 n); [|discriminate].
  destruct (Z.leb_spec (off + n) (Z.of_nat (length dst))); [|discriminate].
  auto.
Qed.

(** X9: Whatever is called, and whatever the transport answers, the transmit
    array keeps its size and [0 <= tx_fillLevel <= UDP_TX_PACKET_MAX_SIZE]
    holds again when the call returns. *)
Theorem invoke_keeps_tx_invariant m st :
  Z.of_nat (length (tx_buf st)) = UDP_TX_PACKET_MAX_SIZE ->
  tx_invariant st ->
  post (invoke m st)
       (fun '(_, st') =>
          Z.of_nat (length (tx_buf st')) = UDP_TX_PACKET_MAX_SIZE
          /\ tx_invariant st').
Proof.
  intros Hlen Hinv. pose proof Hinv as [Hlo Hhi].
  assert (Hz : Z.of_nat (length (zeroes UDP_TX_PACKET_MAX_SIZE))
               = UDP_TX_PACKET_MAX_SIZE) by (apply length_zeroes; lia).
  destruct m; simpl.
  all: try (unfold begin, available, stop, flush, beginPacket_host,
              beginPacket, endPacket, parsePacket, read, peek, remoteIP,
              remotePort; split_tests; unfold tx_invariant in *; cbn;
            auto with zarith; fail).
  - (* write(byte) *)
    unfold write_byte, write. unfold_body.
    destruct (memcpy _ _ _ _) as [buf'|] eqn:Hcpy; cbn; [|exact I].
    apply memcpy_inv in Hcpy as (_ & Hn & Hroom & Hlen').
    unfold tx_invariant. cbn. lia.
  - (* write(buffer, size) *)
    unfold write. unfold_body.
    destruct (memcpy _ _ _ _) as [buf'|] eqn:Hcpy; cbn; [|exact I].
    apply memcpy_inv in Hcpy as (_ & Hn & Hroom & Hlen').
    unfold tx_invariant. cbn. lia.
  - (* read(buffer, len) *)
    unfold read_buf. unfold_body. apply post_pbind.
    eapply post_weaken; [|apply read_loop_frame].
    intros [r st'] ->. cbn. auto.
Qed.

End Assembling.

(** ** Taking the received packet out *)

Section Unread.
Context `{Platform} {W : Type} `{Transport W}.

Lemma unread_nil st : rx_fillLevel st <= rx_currentIndex st -> unread st = [].
Proof.
  intros Hle. unfold unread.
  replace (Z.to_nat (rx_fillLevel st - rx_currentIndex st)) with 0%nat by lia.
  reflexivity.
Qed.

Lemma unread_cons st :
  0 <= rx_currentIndex st < rx_fillLevel st ->
  rx_fillLevel st <= Z.of_nat (length (rx_buf st)) ->
  exists b,
    load (rx_buf st) (rx_currentIndex st) = Some b
    /\ unread st
       = b :: unread (set_rx_currentIndex (rx_currentIndex st + 1) st).
Proof.
  intros Hidx Hfill.
  destruct (lookup_lt_is_Some_2 (rx_buf st) (Z.to_nat (rx_currentIndex st)))
    as [b Hb]; [lia|].
  exists b. split.
  - unfold load. destruct (Z.leb_spec 0 (rx_currentIndex st)); [exact Hb|lia].
  - unfold unread. cbn.
    rewrite (drop_S _ _ _ Hb).
    replace (Z.to_nat (rx_fillLevel st - rx_currentIndex st))
      with (S (Z.to_nat (rx_fillLevel st - (rx_currentIndex st + 1))))
      by lia.
    replace (Z.to_nat (rx_currentIndex st + 1))
      with (S (Z.to_nat (rx_currentIndex st))) by lia.
    reflexivity.
Qed.

Lemma length_unread st :
  0 <= rx_currentIndex st ->
  rx_fillLevel st <= Z.of_nat (length (rx_buf st)) ->
  Z.of_nat (length (unread st))
  = Z.max 0 (rx_fillLevel st - rx_currentIndex st).
Proof.
  intros Hidx Hfill. unfold unread.
  rewrite length_take, length_drop. lia.
Qed.

(** X12: [available] counts the unread bytes. *)
Theorem available_counts_unread st (w : W) :
  0 <= rx_currentIndex st ->
  rx_fillLevel st <= Z.of_nat (length (rx_buf st)) ->
  run (available st) w = Some (Z.of_nat (length (unread st)), st, w).
Proof.
  intros Hidx Hfill. rewrite length_unread by assumption.
  unfold available. unfold_always.
  destruct (Z.ltb_spec (rx_fillLevel st - rx_currentIndex st) 0);
    unfold_always; repeat f_equal; lia.
Qed.

(** X13: With nothing unread, [read()] returns 0 and [read(buffer, len)]
    returns 0 with the caller's array untouched; neither changes the
    object. *)
Theorem read_nothing_unread st buffer len (w : W) :
  rx_fillLevel st <= rx_currentIndex st ->
  run (read st) w = Some (0, st, w)
  /\ run (read_buf buffer len st) w = Some (0, buffer, st, w).
Proof.
  intros Hle. split.
  - unfold read. unfold_always.
    destruct (Z.geb_spec (rx_currentIndex st) (rx_fillLevel st)); [|lia].
    reflexivity.
  - unfold read_buf. unfold_always.
    replace (Z.to_nat (rx_fillLevel st - rx_currentIndex st)) with 0%nat
      by lia.
    simpl. unfold_always.
    destruct (Z.ltb_spec (rx_currentIndex st) (rx_fillLevel st)); [lia|].
    rewrite andb_false_r. reflexivity.
Qed.

Lemma read_next st (w : W) :
  0 <= rx_currentIndex st < rx_fillLevel st ->
  rx_fillLevel st <= Z.of_nat (length (rx_buf st)) ->
  exists b,
    unread st = b :: unread (set_rx_currentIndex (rx_currentIndex st + 1) st)
    /\ run (read st) w
       = Some (byte_to_int b,
               set_rx_currentIndex (rx_currentIndex st + 1) st, w)
    /\ run (peek st) w = Some (byte_to_int b, st, w).
Proof.
  intros Hidx Hfill.
  destruct (unread_cons st Hidx Hfill) as (b & Hload & Hun).
  exists b. split; [exact Hun|]. split.
  - unfold read. unfold_always.
    destruct (Z.geb_spec (rx_currentIndex st) (rx_fillLevel st)); [lia|].
    unfold_always. rewrite Hload. reflexivity.
  - unfold peek. unfold_always. rewrite Hload. reflexivity.
Qed.

(** X14: [n] calls of [read()], with at least [n] bytes unread, return the next
    [n] unread bytes in order and move the cursor by [n]. *)
Theorem reads_drain n :
  forall st (w : W),
    0 <= rx_currentIndex st ->
    rx_fillLevel st <= Z.of_nat (length (rx_buf st)) ->
    (n <= length (unread st))%nat ->
    run (invoke_all (replicate n m_read) st) w
    = Some (map byte_to_int (take n (unread st)),
            set_rx_currentIndex (rx_currentIndex st + Z.of_nat n) st, w).
Proof.
  induction n as [|n IH]; intros st w Hidx Hfill Hn.
  - cbn. rewrite Z.add_0_r, set_rx_currentIndex_same. reflexivity.
  - assert (Hlt : rx_currentIndex st < rx_fillLevel st).
    { destruct (Z.lt_ge_cases (rx_currentIndex st) (rx_fillLevel st))
        as [Hlt|Hge]; [exact Hlt|].
      rewrite unread_nil in Hn by lia. cbn in Hn. lia. }
    destruct (read_next st w) as (b & Hun & Hread & _); [lia|exact Hfill|].
    rewrite Hun in Hn |- *. cbn [length] in Hn.
    cbn [replicate invoke_all]. rewrite run_bind.
    cbn [invoke]. rewrite Hread. rewrite run_bind.
    rewrite IH; cbn; try lia.
    rewrite set_rx_currentIndex_twice.
    replace (rx_currentIndex st + 1 + Z.of_nat n)
      with (rx_currentIndex st + Z.of_nat (S n)) by lia.
    reflexivity.
Qed.

(** X15: [peek] returns what the next [read()] will return, and leaves the
    cursor where it is. *)
Theorem peek_then_read st (w : W) :
  0 <= rx_currentIndex st < rx_fillLevel st ->
  rx_fillLevel st <= Z.of_nat (length (rx_buf st)) ->
  exists v,
    run ((p <- peek ;; r <- read ;; ret (p, r)) st) w
    = Some (v, v, set_rx_currentIndex (rx_currentIndex st + 1) st, w)
    /\ 0 <= v < 256.
Proof.
  intros Hidx Hfill.
  destruct (read_next st w Hidx Hfill) as (b & _ & Hread & Hpeek).
  exists (byte_to_int b). split.
  - rewrite run_bind, Hpeek, run_bind, Hread. reflexivity.
  - unfold byte_to_int. pose proof (Byte.to_N_bounded b). lia.
Qed.

(** X16: [peek] does not look at the fill level.  It returns the byte under the
    cursor even when nothing is unread, and when the cursor stands at the
    end of the array (a packet of full size, read to the end) it reads
    outside the array. *)
Theorem peek_ignores_fill_level st (w : W) :
  0 <= rx_currentIndex st ->
  (forall b, rx_buf st !! Z.to_nat (rx_currentIndex st) = Some b ->
             run (peek st) w = Some (byte_to_int b, st, w))
  /\ (Z.of_nat (length (rx_buf st)) <= rx_currentIndex st ->
      run (peek st) w = None).
Proof.
  intros Hidx. unfold peek, load. unfold_always.
  destruct (Z.leb_spec 0 (rx_currentIndex st)); [|lia].
  split.
  - intros b ->. reflexivity.
  - intros Hend. rewrite lookup_ge_None_2 by lia. reflexivity.
Qed.

Lemma read_loop_copies fuel :
  forall len buffer bytesCopied st (w : W),
    0 <= bytesCopied <= len + 1 ->
    len + 1 < size_t_modulus ->
    0 <= rx_currentIndex st ->
    rx_fillLevel st <= Z.of_nat (length (rx_buf st)) ->
    (length (unread st) <= fuel)%nat ->
    let k := Nat.min (Z.to_nat (len + 1 - bytesCopied)) (length (unread st)) in
    (Z.to_nat bytesCopied + k <= length buffer)%nat ->
    run (read_loop fuel len buffer bytesCopied st) w =
    Some (bytesCopied + Z.of_nat k,
          take (Z.to_nat bytesCopied) buffer ++ take k (unread st)
          ++ drop (Z.to_nat bytesCopied + k) buffer,
          set_rx_currentIndex (rx_currentIndex st + Z.of_nat k) st, w).
Proof.
  induction fuel as [|fuel IH];
    intros len buffer bytesCopied st w Hc Hlen Hidx Hfill Hfuel k Hroom;
    pose proof (length_unread st Hidx Hfill) as Hun;
    simpl; unfold_always; rewrite to_size_t_small by lia.
  - assert (k = 0%nat) as -> by (unfold k; lia).
    destruct (Z.ltb_spec (rx_currentIndex st) (rx_fillLevel st)); [lia|].
    rewrite andb_false_r. cbn.
    change (Z.of_nat 0) with 0.
    rewrite !Z.add_0_r, Nat.add_0_r, take_0, app_nil_l, take_drop,
      set_rx_currentIndex_same.
    reflexivity.
  - destruct (Z.leb_spec bytesCopied len) as [Hle|Hgt];
      destruct (Z.ltb_spec (rx_currentIndex st) (rx_fillLevel st))
        as [Hlt|Hge]; cbn [andb].
    2-4: assert (k = 0%nat) as -> by (unfold k; lia); cbn;
         change (Z.of_nat 0) with 0;
         rewrite !Z.add_0_r, Nat.add_0_r, take_0, app_nil_l, take_drop,
           set_rx_currentIndex_same; reflexivity.
    destruct (unread_cons st) as (b & Hload & Hcons); [lia|exact Hfill|].
    set (st1 := set_rx_currentIndex (rx_currentIndex st + 1) st) in *.
    assert (Hk : k = S (Nat.min (Z.to_nat (len + 1 - (bytesCopied + 1)))
                          (length (unread st1)))).
    { unfold k. rewrite Hcons. cbn [length]. lia. }
    rewrite Hload. unfold_always.
    rewrite store_in_range by lia. unfold_always.
    fold st1. rewrite IH; try (cbn; lia).
    + rewrite Hk, Hcons. cbn [rx_currentIndex st1 set_rx_currentIndex].
      unfold st1. rewrite set_rx_currentIndex_twice.
      set (k1 := Nat.min _ _).
      set (i := Z.to_nat bytesCopied).
      replace (Z.to_nat (bytesCopied + 1)) with (S i) by lia.
      rewrite (take_S_r _ i b)
        by (apply list_lookup_insert_eq; unfold i; lia).
      rewrite take_insert_ge by lia.
      rewrite drop_insert_lt by lia.
      rewrite <- app_assoc. cbn [app take].
      replace (S i + k1)%nat with (i + S k1)%nat by lia.
      replace (bytesCopied + 1 + Z.of_nat k1)
        with (bytesCopied + Z.of_nat (S k1)) by lia.
      replace (rx_currentIndex st + 1 + Z.of_nat k1)
        with (rx_currentIndex st + Z.of_nat (S k1)) by lia.
      reflexivity.
    + rewrite Hcons in Hfuel. cbn [length] in Hfuel. lia.
    + rewrite length_insert. lia.
Qed.

(** X17: [read(buffer, len)] stores the next [n] unread bytes, in order, at
    the front of the caller's array, leaves the rest of the array alone,
    moves the cursor by [n] and returns [n], where [n] is [len + 1] or
    the number of unread bytes, whichever is smaller. *)
Theorem read_buf_copies buffer len st (w : W) :
  0 <= len ->
  len + 1 < size_t_modulus ->
  0 <= rx_currentIndex st ->
  rx_fillLevel st <= Z.of_nat (length (rx_buf st)) ->
  let n := Nat.min (Z.to_nat (len + 1)) (length (unread st)) in
  (n <= length buffer)%nat ->
  run (read_buf buffer len st) w =
  Some (Z.of_nat n,
        take n (unread st) ++ drop n buffer,
        set_rx_currentIndex (rx_currentIndex st + Z.of_nat n) st, w).
Proof.
  intros Hlen Hmax Hidx Hfill n Hroom.
  pose proof (length_unread st Hidx Hfill) as Hun.
  unfold read_buf. unfold_always.
  rewrite read_loop_copies; try lia.
  rewrite Z.sub_0_r. fold n. change (Z.to_nat 0) with 0%nat.
  rewrite take_0, app_nil_l, Z.add_0_l, Nat.add_0_l. reflexivity.
Qed.

(** X18: A datagram that fits is delivered whole: when the receive stores
    [data] and reports its length, [parsePacket] returns that length and
    the unread bytes are exactly [data], whatever was unread before. *)
Theorem parsePacket_delivers (st : WiFiUDP) (w w1 w2 : W) (iRet : Z)
    (data : list byte) (address : SlSockAddrIn_t) :
  _socketHandle st <> NO_SOCKET_AVAIL ->
  answer (poll_request st) w = (iRet, w1) ->
  0 < iRet ->
  answer (receive_request st) w1
    = (Z.of_nat (length data), data, address, w2) ->
  (length data <= length (rx_buf st))%nat ->
  exists st',
    run (parsePacket st) w = Some (Z.of_nat (length data), st', w2)
    /\ unread st' = data
    /\ length (rx_buf st') = length (rx_buf st).
Proof.
  unfold poll_request, receive_request. intros Hh Hsel Hpos Hrecv Hfit.
  unfold parsePacket. unfold_always.
  destruct (Z.eqb_spec (_socketHandle st) NO_SOCKET_AVAIL) as [E|_];
    [contradiction|].
  unfold_always. rewrite Hsel.
  destruct (Z.leb_spec iRet 0); [lia|].
  unfold_always. rewrite Hrecv.
  destruct (Z.ltb_spec (Z.of_nat (length data)) 0); [lia|].
  unfold_always. eexists. split; [reflexivity|].
  unfold unread, overwrite. cbn.
  rewrite Z.sub_0_r, Nat2Z.id, drop_0.
  split.
  - rewrite take_take, Nat.min_l by exact Hfit. apply take_app_length.
  - rewrite length_take, length_app, length_drop. lia.
Qed.

End Unread.

(** ** What each call leaves alone *)

Section Separation.
Context `{Platform} {W : Type} `{Transport W}.

(** X19: Calls that do not assemble or send a packet leave the packet under
    assembly and its destination as they are. *)
Theorem receive_side_leaves_transmit_side m st :
  transmit_side m = false ->
  post (invoke m st)
       (fun '(_, st') =>
          tx_buf st' = tx_buf st
          /\ tx_fillLevel st' = tx_fillLevel st
          /\ _sendIP st' = _sendIP st
          /\ _sendPort st' = _sendPort st).
Proof.
  intros Hm. destruct m; try discriminate; simpl.
  all: try (unfold begin, available, stop, flush, parsePacket, read, peek,
              remoteIP, remotePort; split_tests; cbn; auto; fail).
  unfold read_buf. unfold_body. apply post_pbind.
  eapply post_weaken; [|apply read_loop_frame].
  intros [r st'] ->. cbn. auto.
Qed.

(** X20: [write] and [endPacket] leave the received packet, the read cursor
    and the sender's address as they are. *)
Theorem write_and_endPacket_leave_receive_side st buffer size b :
  let untouched (x : Z * WiFiUDP) :=
    rx_buf (snd x) = rx_buf st
    /\ rx_currentIndex (snd x) = rx_currentIndex st
    /\ rx_fillLevel (snd x) = rx_fillLevel st
    /\ _remoteIP (snd x) = _remoteIP st
    /\ _remotePort (snd x) = _remotePort st in
  post (write buffer size st) untouched
  /\ post (write_byte b st) untouched
  /\ post (endPacket st) untouched.
Proof.
  intros untouched. unfold untouched, write_byte, write, endPacket.
  repeat split; split_tests; cbn; auto.
Qed.

(** X21: The sender's address and port change in [parsePacket] and nowhere
    else. *)
Theorem only_parsePacket_sets_sender m st :
  m <> m_parsePacket ->
  post (invoke m st)
       (fun '(_, st') =>
          _remoteIP st' = _remoteIP st /\ _remotePort st' = _remotePort st).
Proof.
  intros Hm. destruct m; try contradiction; simpl.
  all: try (unfold begin, available, stop, flush, beginPacket_host,
              beginPacket, endPacket, write_byte, write, read, peek,
              remoteIP, remotePort; split_tests; cbn; auto; fail).
  unfold read_buf. unfold_body. apply post_pbind.
  eapply post_weaken; [|apply read_loop_frame].
  intros [r st'] ->. cbn. auto.
Qed.

End Separation.

(** ** Where the bound flag is consulted *)

Section BoundFlag.
Context `{Platform} {W : Type} `{Transport W}.

Lemma read_loop_with_sock fuel :
  forall len buffer bytesCopied st v (w : W),
    run (read_loop fuel len buffer bytesCopied (set_sock v st)) w
    = with_sock v (run (read_loop fuel len buffer bytesCopied st) w).
Proof.
  induction fuel as [|fuel IH]; intros len buffer bytesCopied st v w;
    simpl; unfold_always;
    change (rx_currentIndex (set_sock v st)) with (rx_currentIndex st);
    change (rx_fillLevel (set_sock v st)) with (rx_fillLevel st);
    change (rx_buf (set_sock v st)) with (rx_buf st).
  - now destruct (_ && _).
  - destruct (_ && _); [|reflexivity].
    unfold_always.
    change (rx_buf (set_sock v st)) with (rx_buf st).
    destruct (load (rx_buf st) (rx_currentIndex st)); [|reflexivity].
    unfold_always.
    destruct (store buffer bytesCopied b); [|reflexivity].
    unfold_always. apply (IH len l (bytesCopied + 1)
                            (set_rx_currentIndex (rx_currentIndex st + 1) st)).
Qed.

(** X22: Only [begin], [stop] and the two [beginPacket]s depend on [_sock].
    Every other call makes the same transport calls, returns the same
    value and changes the object in the same way whether the object is
    bound or not; in particular [write], [endPacket], [parsePacket] and
    the reads carry on after [stop]. *)
Theorem bound_flag_guards_beginPacket_only m st v (w : W) :
  mentions_sock m = false ->
  run (invoke m (set_sock v st)) w = with_sock v (run (invoke m st) w)
  /\ calls (invoke m (set_sock v st)) w = calls (invoke m st) w.
Proof.
  intros Hm. destruct m; try discriminate; cbn [invoke].
  - (* available *)
    unfold available. unfold_always. cbn.
    now destruct (_ <? 0).
  - (* endPacket *)
    unfold endPacket. unfold_always. cbn.
    destruct (answer _ w) as [iRet w1]. now destruct (iRet <? 0).
  - (* write(byte) *)
    unfold write_byte, write. unfold_always. cbn.
    now destruct (memcpy _ _ _ _).
  - (* write(buffer, size) *)
    unfold write. unfold_always. cbn.
    now destruct (memcpy _ _ _ _).
  - (* parsePacket *)
    unfold parsePacket. unfold_always. cbn.
    destruct (_socketHandle st =? NO_SOCKET_AVAIL); [now split|].
    unfold_always. destruct (answer _ w) as [iRet w1].
    destruct (iRet <=? 0); [now split|].
    unfold_always. destruct (answer _ w1) as [[[bytes data] address] w2].
    unfold_always. cbn. now destruct (bytes <? 0).
  - (* read() *)
    unfold read. unfold_always. cbn.
    destruct (_ >=? _); [now split|].
    now destruct (load _ _).
  - (* read(buffer, len) *)
    unfold read_buf. split.
    + rewrite !run_bind. unfold_always. cbn.
      rewrite read_loop_with_sock.
      now destruct (run (read_loop _ _ _ _ st) w) as [[[[n b] st'] w']|].
    + rewrite !calls_bind. unfold_always. cbn.
      rewrite read_loop_with_sock.
      assert (Hnone : forall fuel n buf c s,
                 calls (read_loop fuel n buf c s) w = []).
      { induction fuel as [|fuel IH]; intros n buf c s; simpl;
          unfold_always.
        - now destruct (_ && _).
        - destruct (_ && _); [|reflexivity].
          destruct (load _ _); [|reflexivity]. unfold_always.
          destruct (store _ _ _); [|reflexivity]. unfold_always.
          apply IH. }
      rewrite !Hnone.
      now destruct (run (read_loop _ _ _ _ st) w) as [[[[n b] st'] w']|].
  - (* peek *)
    unfold peek. unfold_always. cbn. now destruct (load _ _).
  - (* flush *)
    unfold flush. unfold_always. cbn. now split.
  - (* remoteIP *)
    now split.
  - (* remotePort *)
    now split.
Qed.

(** X23: The hostname form of [beginPacket] looks the host up before it tests
    whether the object is bound: on an unbound object the lookup is made
    and its answer thrown away. *)
Theorem beginPacket_host_unbound host port st (w w' : W) success ip :
  _sock st = NO_SOCKET_AVAIL ->
  answer (WiFi_hostByName host) w = (success, ip, w') ->
  run (beginPacket_host host port st) w = Some (0, st, w')
  /\ calls (beginPacket_host host port st) w = [req (WiFi_hostByName host)].
Proof.
  intros Hsock Hans. unfold beginPacket_host, beginPacket. unfold_always.
  rewrite Hans. destruct (success =? 0); unfold_always.
  - now split.
  - rewrite Hsock, Z.eqb_refl. now split.
Qed.

(** X24: A freshly constructed object is unbound and empty: both fill-level
    invariants hold, the arrays have their sizes, [available] and [read]
    return 0 and [beginPacket] returns 0. *)
Theorem constructed_object_is_idle port0 handle0 sendIP0 sendPort0 (w : W) :
  0 <= UDP_RX_PACKET_MAX_SIZE ->
  0 <= UDP_TX_PACKET_MAX_SIZE ->
  let st := WiFiUDP_ctor port0 handle0 sendIP0 sendPort0 in
  rx_invariant st /\ tx_invariant st
  /\ Z.of_nat (length (rx_buf st)) = UDP_RX_PACKET_MAX_SIZE
  /\ Z.of_nat (length (tx_buf st)) = UDP_TX_PACKET_MAX_SIZE
  /\ unread st = [] /\ pending st = []
  /\ run (available st) w = Some (0, st, w)
  /\ run (read st) w = Some (0, st, w)
  /\ forall ip port, run (beginPacket ip port st) w = Some (0, st, w).
Proof.
  intros Hrx Htx st.
  repeat split; try (cbn; lia); try (apply length_zeroes; assumption).
  intros ip port. now apply beginPacket_unbound.
Qed.

End BoundFlag.

(** ** The further properties on the sample session *)

Section Replayed.
Import Sample Session Replay.
#[local] Existing Instances platform transport Scripted.transport.

Lemma begin_bind_failure_closes_witness :
  run (begin 8000 fresh) [0; 3; -1; 0] = Some (0, fresh, [])
  /\ calls (begin 8000 fresh) [0; 3; -1; 0]
     = [req WiFiClass_getSocket; req (sl_Socket 2 2 17);
        req (sl_Bind 3 (mkSockAddr 2 (bswap16 8000) 0)); req (sl_Close 3)].
Proof.
  refine (begin_bind_failure_closes 8000 fresh [0; 3; -1; 0] [3; -1; 0]
            [-1; 0] [0] [] 0 3 (-1) 0 _ _ _ _ _ _ _).
  - reflexivity.
  - vm_compute; discriminate.
  - reflexivity.
  - lia.
  - reflexivity.
  - lia.
  - reflexivity.
Defined.

Lemma begin_no_slot_witness :
  run (begin 8000 fresh) [255; 3] = Some (0, fresh, [3])
  /\ calls (begin 8000 fresh) [255; 3] = [req WiFiClass_getSocket].
Proof.
  refine (begin_no_slot 8000 fresh [255; 3] [3] _). reflexivity.
Defined.

Lemma begin_then_beginPacket_witness :
  always ((r <- begin 8000 ;; r' <- beginPacket 3232235777 9000 ;;
           ret (r, r')) stopped_state)
    (fun '(rs, _) => snd rs = fst rs).
Proof.
  refine (begin_then_beginPacket 8000 3232235777 9000 stopped_state _).
  reflexivity.
Defined.

Lemma write_appends_witness :
  exists st',
    run (write hello 5 hello_state) idle = Some (5, st', idle)
    /\ tx_fillLevel st' = 10
    /\ pending st' = hello ++ hello.
Proof.
  destruct (write_appends hello_state hello 5 idle)
    as (st' & Hrun & Hfill & _ & _ & Hpend & _).
  - vm_compute; reflexivity.
  - unfold tx_invariant; cbn; lia.
  - lia.
  - unfold size_t_modulus; cbn; lia.
  - cbn; lia.
  - exists st'. split; [exact Hrun|]. split; [exact Hfill | exact Hpend].
Defined.


Lemma packet_round_trip_witness :
  exists buf,
    calls ((beginPacket 3232235777 9000 ;; write hello 5 ;;
            write digits 10 ;; endPacket) bound_state) bound_net
      = [req (sl_SendTo 0 buf 15 0 peer)]
    /\ take 15 buf = hello ++ digits.
Proof.
  refine (packet_round_trip bound_state hello digits 3232235777 9000
           bound_net _ _ _).
  - unfold bound; vm_compute; discriminate.
  - cbn; lia.
  - unfold size_t_modulus; cbn; lia.
Defined.

Lemma invoke_keeps_tx_invariant_witness :
  post (invoke (m_write digits 10) full_tx_state)
       (fun '(_, st') =>
          Z.of_nat (length (tx_buf st')) = 1024 /\ tx_invariant st').
Proof.
  refine (invoke_keeps_tx_invariant (m_write digits 10) full_tx_state _ _).
  - vm_compute; reflexivity.
  - unfold tx_invariant; cbn; lia.
Defined.

Lemma invoke_keeps_rx_invariant_witness :
  post (invoke (m_read_buf (replicate 8 x00) 4) received_state)
       (fun '(_, st') => rx_invariant st').
Proof.
  apply (invoke_keeps_rx_invariant (m_read_buf (replicate 8 x00) 4)
           received_state).
  - unfold rx_invariant; cbn; lia.
  - discriminate.
Defined.

Lemma parsePacket_rx_invariant_witness :
  post (parsePacket received_state)
       (fun '(_, st') =>
          rx_invariant st'
          \/ (rx_fillLevel st' = 0
              /\ rx_currentIndex st' = rx_currentIndex received_state
              /\ 0 < rx_currentIndex received_state)
          \/ UDP_RX_PACKET_MAX_SIZE < rx_fillLevel st').
Proof.
  refine (parsePacket_rx_invariant received_state _).
  unfold rx_invariant; cbn; lia.
Defined.

Lemma available_counts_unread_witness :
  run (available received_state) idle = Some (10, received_state, idle).
Proof.
  refine (available_counts_unread received_state idle _ _).
  - cbn; lia.
  - cbn; lia.
Defined.

Lemma read_nothing_unread_witness :
  run (read bound_state) idle = Some (0, bound_state, idle)
  /\ run (read_buf hello 5 bound_state) idle
     = Some (0, hello, bound_state, idle).
Proof.
  refine (read_nothing_unread bound_state hello 5 idle _). cbn; lia.
Defined.

Lemma reads_drain_witness :
  run (invoke_all [m_read; m_read; m_read] received_state) idle
  = Some ([48; 49; 50], set_rx_currentIndex 3 received_state, idle).
Proof.
  refine (reads_drain 3 received_state idle _ _ _).
  - cbn; lia.
  - cbn; lia.
  - vm_compute; lia.
Defined.

Lemma peek_then_read_witness :
  exists v,
    run ((p <- peek ;; r <- read ;; ret (p, r)) received_state) idle
    = Some (v, v, set_rx_currentIndex 1 received_state, idle)
    /\ 0 <= v < 256.
Proof.
  refine (peek_then_read received_state idle _ _).
  - cbn; lia.
  - cbn; lia.
Defined.

Lemma peek_ignores_fill_level_witness :
  run (peek bound_state) idle = Some (0, bound_state, idle)
  /\ run (peek drained_state) idle = None.
Proof.
  split.
  - apply (proj1 (peek_ignores_fill_level bound_state idle
                    ltac:(cbn; lia)) x00).
    reflexivity.
  - apply (proj2 (peek_ignores_fill_level drained_state idle
                    ltac:(cbn; lia))).
    cbn; lia.
Defined.

Lemma read_buf_copies_witness :
  run (read_buf (replicate 8 x00) 4 received_state) idle
  = Some (5, [x30; x31; x32; x33; x34; x00; x00; x00],
          set_rx_currentIndex 5 received_state, idle).
Proof.
  refine (read_buf_copies (replicate 8 x00) 4 received_state idle _ _ _ _ _).
  - lia.
  - unfold size_t_modulus; cbn; lia.
  - cbn; lia.
  - cbn; lia.
  - vm_compute; lia.
Defined.

Lemma parsePacket_delivers_witness :
  exists st',
    run (parsePacket bound_state) arriving = Some (10, st', bound_net)
    /\ unread st' = digits
    /\ length (rx_buf st') = length (rx_buf bound_state).
Proof.
  refine (parsePacket_delivers bound_state arriving arriving bound_net 1
           digits peer _ _ _ _ _).
  - vm_compute; discriminate.
  - reflexivity.
  - lia.
  - reflexivity.
  - cbn; lia.
Defined.

Lemma receive_side_leaves_transmit_side_witness :
  post (invoke m_parsePacket hello_state)
       (fun '(_, st') =>
          tx_buf st' = tx_buf hello_state
          /\ tx_fillLevel st' = tx_fillLevel hello_state
          /\ _sendIP st' = _sendIP hello_state
          /\ _sendPort st' = _sendPort hello_state).
Proof.
  refine (receive_side_leaves_transmit_side m_parsePacket hello_state _).
  reflexivity.
Defined.

Lemma only_parsePacket_sets_sender_witness :
  post (invoke (m_beginPacket 3232235777 9000) received_state)
       (fun '(_, st') =>
          _remoteIP st' = _remoteIP received_state
          /\ _remotePort st' = _remotePort received_state).
Proof.
  refine (only_parsePacket_sets_sender (m_beginPacket 3232235777 9000)
           received_state _).
  discriminate.
Defined.

Lemma bound_flag_guards_beginPacket_only_witness :
  run (invoke (m_write hello 5) (set_sock 255 bound_state)) bound_net
    = with_sock 255 (run (invoke (m_write hello 5) bound_state) bound_net)
  /\ calls (invoke m_endPacket (set_sock 255 hello_state)) bound_net
     = calls (invoke m_endPacket hello_state) bound_net.
Proof.
  split.
  - apply (bound_flag_guards_beginPacket_only (m_write hello 5) bound_state
             255 bound_net).
    reflexivity.
  - apply (bound_flag_guards_beginPacket_only m_endPacket hello_state 255
             bound_net).
    reflexivity.
Defined.

Lemma beginPacket_host_unbound_witness :
  run (beginPacket_host "example.org" 9000 stopped_state) idle
    = Some (0, stopped_state, idle)
  /\ calls (beginPacket_host "example.org" 9000 stopped_state) idle
     = [req (WiFi_hostByName "example.org")].
Proof.
  refine (beginPacket_host_unbound "example.org" 9000 stopped_state idle idle
           1 3232235777 _ _).
  - reflexivity.
  - reflexivity.
Defined.

Lemma constructed_object_is_idle_witness :
  rx_invariant fresh /\ tx_invariant fresh
  /\ Z.of_nat (length (rx_buf fresh)) = 1024
  /\ Z.of_nat (length (tx_buf fresh)) = 1024
  /\ unread fresh = [] /\ pending fresh = []
  /\ run (available fresh) idle = Some (0, fresh, idle)
  /\ run (read fresh) idle = Some (0, fresh, idle)
  /\ forall ip port, run (beginPacket ip port fresh) idle
                     = Some (0, fresh, idle).
Proof.
  refine (constructed_object_is_idle 7 (-1) 0 0 idle _ _).
  - cbn; lia.
  - cbn; lia.
Defined.

End Replayed.
